(** * Explorer: precision resolver, pagination, decoding, collaborators, connect

    A shallow embedding of the decision logic of the explorer UI:
    - [src/rpc/metadata/index.ts]   (AssetInfo, MetadataServiceClient)
    - [src/rpc/indexer/index.ts]    (IndexerClient)
    - the AccountDetail page        (formatBalance, formatSubaccountAsset,
                                     pagination, transaction decoding, totals)
    - [src/components/Connect]      (connectClient)

    JavaScript values are modelled as follows.  A [number] that holds an
    exponent, a page or a length is a [Z]; [undefined] is [None];
    a [Map] is an insertion-ordered association list with the update
    semantics of [Map.prototype.set]; strings are [string]s of ASCII
    characters; a promise that rejects / a call that throws is an explicit
    outcome. *)

From Stdlib Require Import ZArith List String Ascii Bool Lia.
From Stdlib Require Import QArith.
From Stdlib Require Import DecimalString.
From Stdlib Require Import SpecFloat.
Import ListNotations.

Local Open Scope Z_scope.
Local Open Scope string_scope.

(* ================================================================== *)
(** ** JavaScript strings *)
(* ================================================================== *)

Module Str.

(** [String.prototype.toLowerCase] on the ASCII range. *)
Definition lower_ascii (c : ascii) : ascii :=
  let n := nat_of_ascii c in
  if (65 <=? n)%nat && (n <=? 90)%nat then ascii_of_nat (n + 32) else c.

Fixpoint toLowerCase (s : string) : string :=
  match s with
  | EmptyString => EmptyString
  | String c r => String (lower_ascii c) (toLowerCase r)
  end.

(** [s.startsWith(p)] *)
Definition startsWith (s p : string) : bool := String.prefix p s.

(** [s.includes(sub)]: [sub] occurs in [s] at some offset. *)
Fixpoint includes (s sub : string) : bool :=
  if String.prefix sub s then true
  else match s with
       | EmptyString => false
       | String _ r => includes r sub
       end.

(** [s.slice(1)] / [s.substring(1)] *)
Definition dropFirst (s : string) : string :=
  match s with
  | EmptyString => EmptyString
  | String _ r => r
  end.

(** JavaScript truthiness of a string: [""] is falsy. *)
Definition truthy (s : string) : bool :=
  match s with
  | EmptyString => false
  | String _ _ => true
  end.

(** [s.replace(/\/$/, '')]: one slash at the very end is removed. *)
Fixpoint stripTrailingSlash (s : string) : string :=
  match s with
  | EmptyString => EmptyString
  | String c r =>
      match r with
      | EmptyString => if Ascii.eqb c "/" then EmptyString else s
      | String _ _ => String c (stripTrailingSlash r)
      end
  end.

(** An integer inside a template literal. *)
Definition ofInt (n : Z) : string := NilZero.string_of_int (Z.to_int n).

End Str.

(* ================================================================== *)
(** ** JavaScript [Map]: insertion-ordered, keys unique *)
(* ================================================================== *)

Module JsMap.

Definition t (V : Type) : Type := list (string * V).

Definition empty {V} : t V := [].

Fixpoint get {V} (m : t V) (k : string) : option V :=
  match m with
  | [] => None
  | (k', v) :: r => if String.eqb k' k then Some v else get r k
  end.

(** [m.set(k, v)]: an existing key keeps its position, a new key goes
    to the end of the iteration order. *)
Fixpoint set {V} (m : t V) (k : string) (v : V) : t V :=
  match m with
  | [] => [(k, v)]
  | (k', v') :: r =>
      if String.eqb k' k then (k', v) :: r else (k', v') :: set r k v
  end.

(** [m.entries()] in iteration order. *)
Definition entries {V} (m : t V) : list (string * V) := m.

Definition keys {V} (m : t V) : list string := map fst m.

End JsMap.

(* ================================================================== *)
(** ** Promises, [fetch] and [try]/[catch] in an [async] function *)
(* ================================================================== *)

Module Http.

(** A settled promise. *)
Inductive Promise (A : Type) : Type :=
| Resolved (a : A)
| Rejected.

Arguments Resolved {A} a.
Arguments Rejected {A}.

(** A [Response]: its status, and what reading the body settles to.
    [J] is the type the JSON body is read at. *)
Record Response (J : Type) : Type := mkResponse {
  status : Z;
  text : Promise string;
  json : Promise J
}.

Arguments mkResponse {J} status text json.
Arguments status {J} r.
Arguments text {J} r.
Arguments json {J} r.

(** [response.ok]: the status is in the range 200-299. *)
Definition ok {J} (r : Response J) : bool :=
  (200 <=? status r)%Z && (status r <=? 299)%Z.

(** How the body of a [try] block inside an [async] function ends:
    it returns a value, it returns a promise without awaiting it (the
    block is left and the function's promise follows that promise), or an
    exception is thrown inside the block. *)
Inductive Completion (A : Type) : Type :=
| Return (a : A)
| ReturnPromise (p : Promise A)
| Throw.

Arguments Return {A} a.
Arguments ReturnPromise {A} p.
Arguments Throw {A}.

(** [await p] inside the block, followed by the rest of the block. *)
Definition await {A B} (p : Promise A) (k : A -> Completion B) : Completion B :=
  match p with
  | Resolved a => k a
  | Rejected => Throw
  end.

(** [try { body } catch (error) { return handler }] as the whole body of
    an [async] function. *)
Definition tryCatch {A} (body : Completion A) (handler : A) : Promise A :=
  match body with
  | Return a => Resolved a
  | ReturnPromise p => p
  | Throw => Resolved handler
  end.

End Http.

(* ================================================================== *)
(** ** Metadata service: AssetInfo and exponent precedence *)
(* ================================================================== *)

Module Metadata.

(** [interface AssetInfo]; a field missing from the JSON record
    ([undefined]) is [None].  A field that is present holds a number:
    records with [null] fields are outside the model. *)
Record AssetInfo : Type := mkAssetInfo {
  symbol : string;
  name : string;
  decimals : option Z;
  atomicResolution : option Z;
  denomExponent : option Z
}.

(** The nullish coalescing operator [a ?? b]. *)
Definition nullish {A} (a b : option A) : option A :=
  match a with
  | Some x => Some x
  | None => b
  end.

Notation "a ?? b" := (nullish a b) (at level 45, left associativity).

(** [info.atomicResolution ?? info.denomExponent ?? info.decimals] *)
Definition precedenceExponent (info : AssetInfo) : option Z :=
  atomicResolution info ?? denomExponent info ?? decimals info.

(** [exponent !== undefined && exponent > 0] *)
Definition definedPositive (exponent : option Z) : bool :=
  match exponent with
  | Some e => (0 <? e)%Z
  | None => false
  end.

(** [AssetInfoResponse]: the entries of the response object, in the
    order of [Object.entries]. *)
Definition AssetInfoResponse : Type := list (string * AssetInfo).

(** [MetadataServiceClient.getAssetInfo], given what [fetch] settles to. *)
Definition getAssetInfo (fetched : Http.Promise (Http.Response AssetInfoResponse))
  : Http.Promise AssetInfoResponse :=
  Http.tryCatch
    (Http.await fetched (fun response =>
       if negb (Http.ok response) then Http.Throw
       else Http.ReturnPromise (Http.json response)))
    [].

(** [interface AssetPrice] *)
Record AssetPrice : Type := mkAssetPrice {
  price_symbol : string;
  price : string
}.

Definition AssetPricesResponse : Type := list (string * AssetPrice).

(** [MetadataServiceClient.getAssetPrices], given what [fetch] settles to. *)
Definition getAssetPrices
    (fetched : Http.Promise (Http.Response AssetPricesResponse))
  : Http.Promise AssetPricesResponse :=
  Http.tryCatch
    (Http.await fetched (fun response =>
       if negb (Http.ok response) then Http.Throw
       else Http.ReturnPromise (Http.json response)))
    [].

(** [class MetadataServiceClient]: the constructor and the two request
    URLs. *)
Record MetadataServiceClient : Type := mkMetadataServiceClient {
  metadataBaseUrl : string
}.

Definition createMetadataClient (baseUrl : string) : MetadataServiceClient :=
  mkMetadataServiceClient (Str.stripTrailingSlash baseUrl).

Definition infoUrl (client : MetadataServiceClient) : string :=
  metadataBaseUrl client ++ "/info".

Definition pricesUrl (client : MetadataServiceClient) : string :=
  metadataBaseUrl client ++ "/prices".

End Metadata.

(* ================================================================== *)
(** ** Indexer client *)
(* ================================================================== *)

Module Indexer.

Inductive Side : Type := LONG | SHORT.

(** [interface AssetPosition] *)
Record AssetPosition : Type := mkAssetPosition {
  symbol : string;
  side : Side;
  size : string;
  assetId : string;
  subaccountNumber : option Z
}.

(** [interface Subaccount]; [assetPositions] lists the entries of the
    object when it is present. *)
Record Subaccount : Type := mkSubaccount {
  sub_address : string;
  sub_subaccountNumber : Z;
  assetPositions : option (list (string * AssetPosition))
}.

(** The [subaccount] object of a [ParentSubaccountResponse]; the body is
    parsed JSON, so [childSubaccounts] may be missing. *)
Record ParentSubaccount : Type := mkParentSubaccount {
  address : string;
  parentSubaccountNumber : Z;
  childSubaccounts : option (list Subaccount)
}.

Record ParentSubaccountResponse : Type := mkParentSubaccountResponse {
  subaccount : option ParentSubaccount
}.

Record SubaccountResponse : Type := mkSubaccountResponse {
  subaccounts : list Subaccount
}.

Record AssetPositionsResponse : Type := mkAssetPositionsResponse {
  positions : list AssetPosition
}.

(** The value both failure branches of [getParentSubaccount] return. *)
Definition emptyParent (addr : string) (n : Z) : ParentSubaccountResponse :=
  mkParentSubaccountResponse (Some (mkParentSubaccount addr n (Some []))).

(** [IndexerClient.getParentSubaccount], given what [fetch] settles to. *)
Definition getParentSubaccount (addr : string) (n : Z)
    (fetched : Http.Promise (Http.Response ParentSubaccountResponse))
  : Http.Promise ParentSubaccountResponse :=
  Http.tryCatch
    (Http.await fetched (fun response =>
       if negb (Http.ok response) then
         if (Http.status response =? 404)%Z then Http.Return (emptyParent addr n)
         else Http.await (Http.text response) (fun _ => Http.Throw)
       else
         Http.await (Http.json response) (fun data => Http.Return data)))
    (emptyParent addr n).

(** [IndexerClient.getSubaccounts] *)
Definition getSubaccounts (addr : string)
    (fetched : Http.Promise (Http.Response ParentSubaccountResponse))
  : Http.Promise SubaccountResponse :=
  Http.tryCatch
    (Http.await (getParentSubaccount addr 0 fetched) (fun response =>
       match subaccount response with
       | None => Http.Throw
       | Some sa =>
           Http.Return
             (mkSubaccountResponse
                (match childSubaccounts sa with
                 | Some l => l
                 | None => []
                 end))
       end))
    (mkSubaccountResponse []).

(** [IndexerClient.getSubaccountAssetPositions] *)
Definition getSubaccountAssetPositions
    (fetched : Http.Promise (Http.Response AssetPositionsResponse))
  : Http.Promise AssetPositionsResponse :=
  Http.tryCatch
    (Http.await fetched (fun response =>
       if negb (Http.ok response) then
         if (Http.status response =? 404)%Z
         then Http.Return (mkAssetPositionsResponse [])
         else Http.Throw
       else Http.ReturnPromise (Http.json response)))
    (mkAssetPositionsResponse []).

(** The [map] callback of [getAllSubaccountAssets]. *)
Definition childPositions (child : Subaccount) : Z * list AssetPosition :=
  (sub_subaccountNumber child,
   match assetPositions child with
   | Some aps =>
       map (fun '(sym, position) =>
              mkAssetPosition
                (if Str.truthy (symbol position) then symbol position else sym)
                (side position) (size position) (assetId position)
                (Some (sub_subaccountNumber child)))
           aps
   | None => []
   end).

(** [IndexerClient.getAllSubaccountAssets] *)
Definition getAllSubaccountAssets (addr : string) (n : Z)
    (fetched : Http.Promise (Http.Response ParentSubaccountResponse))
  : Http.Promise (list (Z * list AssetPosition)) :=
  Http.tryCatch
    (Http.await (getParentSubaccount addr n fetched) (fun response =>
       match subaccount response with
       | Some sa =>
           match childSubaccounts sa with
           | Some (c :: cs) => Http.Return (map childPositions (c :: cs))
           | _ => Http.Return []
           end
       | None => Http.Return []
       end))
    [].

(** [class IndexerClient]: the constructor and the request URLs. *)
Record IndexerClient : Type := mkIndexerClient {
  baseUrl : string
}.

Definition createIndexerClient (url : string) : IndexerClient :=
  mkIndexerClient (Str.stripTrailingSlash url).

Inductive PositionStatus : Type := OPEN | CLOSED.

Definition statusText (st : PositionStatus) : string :=
  match st with
  | OPEN => "OPEN"
  | CLOSED => "CLOSED"
  end.

Definition parentSubaccountUrl (client : IndexerClient) (addr : string) (n : Z)
  : string :=
  baseUrl client ++ "/v4/addresses/" ++ addr ++ "/parentSubaccountNumber/"
  ++ Str.ofInt n.

Definition assetPositionsUrl (client : IndexerClient) (addr : string) (n : Z)
    (st : PositionStatus) : string :=
  baseUrl client ++ "/v4/addresses/" ++ addr ++ "/subaccounts/" ++ Str.ofInt n
  ++ "/asset-positions?status=" ++ statusText st.

End Indexer.

(* ================================================================== *)
(** ** Decimal amounts *)
(* ================================================================== *)

Module Amount.

(** A raw on-chain amount is a non-empty string of decimal digits
    ([Coin.amount]); anything else is outside the model. *)
Definition parse (s : string) : option Z :=
  match s with
  | EmptyString => None
  | _ =>
      match NilEmpty.uint_of_string s with
      | Some u => Some (Z.of_uint u)
      | None => None
      end
  end.

(** Decimal shift of an integer amount by [e] places, as an exact
    rational: [n / 10^e] for [e >= 0], [n * 10^(-e)] otherwise. *)
Definition shift (n : Z) (e : Z) : Q :=
  if (0 <=? e)%Z then Qmake n (Z.to_pos (10 ^ e))
  else inject_Z (n * 10 ^ (- e)).

(** What [getConvertedAmount] returns: the converted amount ([None] when
    the raw amount is not a decimal integer) and the base denom. *)
Record Converted : Type := mkConverted {
  converted : option Q;
  base : string
}.

(** The denom with a single-letter minimal-unit prefix stripped. *)
Definition baseDenom (denom : string) : string :=
  if Str.startsWith denom "u" || Str.startsWith denom "a"
  then Str.dropFirst denom else denom.

(** Modelled from the spec: [getConvertedAmount] of [@/utils/cosmos],
    which is not among the sources.  With a resolved exponent the raw
    amount is shifted by it; without one, the single-letter minimal-unit
    prefixes ["u"] (micro, 6 places) and ["a"] (atto, 18 places) are
    applied and stripped from the denom; otherwise the amount is shown
    unconverted.  The base denom is the denom with such a prefix
    stripped. *)
Definition getConvertedAmount
    (amount denom : string) (exponent : option Z) : Converted :=
  let raw := parse amount in
  match exponent with
  | Some e =>
      mkConverted (option_map (fun n => shift n e) raw) (baseDenom denom)
  | None =>
      if Str.startsWith denom "u" then
        mkConverted (option_map (fun n => shift n 6) raw) (Str.dropFirst denom)
      else if Str.startsWith denom "a" then
        mkConverted (option_map (fun n => shift n 18) raw) (Str.dropFirst denom)
      else
        mkConverted (option_map inject_Z raw) denom
  end.

End Amount.

(* ================================================================== *)
(** ** JavaScript numbers: IEEE 754 binary64 *)
(* ================================================================== *)

Module JsNumber.

Definition prec : Z := 53.
Definition emax : Z := 1024.

(** The Number value for a mathematical integer: round to nearest, ties
    to even. *)
Definition ofInteger (n : Z) : spec_float :=
  binary_normalize prec emax n 0 false.

(** [parseFloat] on a raw amount: the Number value for its digits. *)
Definition parseFloat (s : string) : option spec_float :=
  option_map ofInteger (Amount.parse s).

(** The [+] of two Numbers. *)
Definition add (x y : spec_float) : spec_float := SFadd prec emax x y.

(** The mathematical value of a Number that is an integer. *)
Definition integerValue (x : spec_float) : option Z :=
  match x with
  | S754_zero _ => Some 0
  | S754_finite sg m e =>
      if (0 <=? e)%Z then Some (cond_Zopp sg (Zpos m * 2 ^ e))
      else
        let d := 2 ^ (- e) in
        if (Zpos m mod d =? 0)%Z then Some (cond_Zopp sg (Zpos m / d))
        else None
  | _ => None
  end.

Definition digitsOf (n : Z) : string :=
  NilZero.string_of_uint (N.to_uint (Z.to_N n)).

Definition numDigits (n : Z) : Z := Z.of_nat (String.length (digitsOf n)).

(** Does the decimal integer [c] denote the Number with value [v]? *)
Definition roundsTo (c v : Z) : bool :=
  match integerValue (ofInteger c) with
  | Some v' => (v' =? v)%Z
  | None => false
  end.

(** Number::toString, step 5 of the specification: the decimal
    [s * 10^(n-k)] with the fewest digits [k] whose Number value is the
    given one; among several, the closest, then the even one.  The search
    tries [k = 1, 2, ...] in turn. *)
Fixpoint shortestDecimal (fuel : nat) (k n v : Z) : option Z :=
  match fuel with
  | O => None
  | S fuel' =>
      let scale := 10 ^ (n - k) in
      let lo := v / scale in
      let hi := lo + 1 in
      let okLo := roundsTo (lo * scale) v in
      let okHi := roundsTo (hi * scale) v in
      if okLo && okHi then
        let dLo := v - lo * scale in
        let dHi := hi * scale - v in
        if (dLo <? dHi)%Z then Some (lo * scale)
        else if (dHi <? dLo)%Z then Some (hi * scale)
        else if Z.even lo then Some (lo * scale) else Some (hi * scale)
      else if okLo then Some (lo * scale)
      else if okHi then Some (hi * scale)
      else shortestDecimal fuel' (k + 1) n v
  end.

Fixpoint stripZeros (fuel : nat) (c : Z) : Z :=
  match fuel with
  | O => c
  | S fuel' => if (c mod 10 =? 0)%Z then stripZeros fuel' (c / 10) else c
  end.

(** The decimal rendering of a positive integer-valued Number: plain
    digits up to 21 digits, exponent notation beyond. *)
Definition renderPositive (v : Z) : option string :=
  let n := numDigits v in
  match shortestDecimal (Z.to_nat n) 1 n v with
  | None => None
  | Some c =>
      let n' := numDigits c in
      if (n' <=? 21)%Z then Some (digitsOf c)
      else
        let s := digitsOf (stripZeros (Z.to_nat n') c) in
        let e := digitsOf (n' - 1) in
        match s with
        | String d EmptyString => Some (String d ("e+" ++ e))
        | String d r => Some (String d ("." ++ r ++ "e+" ++ e))
        | EmptyString => None
        end
  end.

(** [x.toString()] for the Numbers that a sum of parsed amounts can be:
    non-negative integers and [Infinity]. *)
Definition toString (x : spec_float) : option string :=
  match x with
  | S754_nan => Some "NaN"
  | S754_infinity false => Some "Infinity"
  | S754_infinity true => Some "-Infinity"
  | S754_zero _ => Some "0"
  | S754_finite false _ _ =>
      match integerValue x with
      | Some v => renderPositive v
      | None => None
      end
  | S754_finite true _ _ => None
  end.

End JsNumber.

(* ================================================================== *)
(** ** AccountDetail: precision resolver *)
(* ================================================================== *)

Module Account.

Import Metadata.

(** [Coin] of cosmjs: a denom and a raw amount string. *)
Record Coin : Type := mkCoin {
  amount : string;
  denom : string
}.

(** The two maps of the component state that the resolver reads. *)
Record Precision : Type := mkPrecision {
  assetInfoMap : JsMap.t AssetInfo;
  denomExponentMap : JsMap.t Z
}.

(** Body of the [Object.entries(assetInfo).forEach] callback. *)
Definition ingestEntry (acc : Precision) (entry : string * AssetInfo)
  : Precision :=
  let '(symbol, info) := entry in
  let infoMap := JsMap.set (assetInfoMap acc) symbol info in
  let exponent := precedenceExponent info in
  match exponent with
  | Some e =>
      if (0 <? e)%Z
      then mkPrecision infoMap (JsMap.set (denomExponentMap acc) symbol e)
      else mkPrecision infoMap (denomExponentMap acc)
  | None => mkPrecision infoMap (denomExponentMap acc)
  end.

(** Metadata ingestion: both maps start empty and are filled from the
    entries of the metadata response, in order. *)
Definition ingest (assetInfo : list (string * AssetInfo)) : Precision :=
  fold_left ingestEntry assetInfo (mkPrecision JsMap.empty JsMap.empty).

(** The test of the fuzzy loop on a denom and a symbol. *)
Definition fuzzyMatch (denom symbol : string) : bool :=
  let denomLower := Str.toLowerCase denom in
  let symbolLower := Str.toLowerCase symbol in
  String.eqb denomLower symbolLower
  || Str.includes denomLower symbolLower
  || Str.includes symbolLower denomLower.

(** The [for (const [symbol, info] of assetInfoMap.entries())] loop of
    [formatBalance]: [exponent] is the loop-carried variable, the map is
    mutated in place and the loop is left by [break] on the first
    matching symbol whose exponent is defined and positive. *)
Fixpoint fuzzyLoop (denom : string) (entries : list (string * AssetInfo))
    (exponent : option Z) (expMap : JsMap.t Z) : option Z * JsMap.t Z :=
  match entries with
  | [] => (exponent, expMap)
  | (symbol, info) :: rest =>
      if fuzzyMatch denom symbol then
        let exponent' := precedenceExponent info in
        match exponent' with
        | Some e =>
            if (0 <? e)%Z then (Some e, JsMap.set expMap denom e)
            else fuzzyLoop denom rest exponent' expMap
        | None => fuzzyLoop denom rest exponent' expMap
        end
      else fuzzyLoop denom rest exponent expMap
  end.

(** Exponent resolution of [formatBalance], with the updated map. *)
Definition resolveExponent (st : Precision) (denom : string)
  : option Z * JsMap.t Z :=
  match JsMap.get (denomExponentMap st) denom with
  | Some e => (Some e, denomExponentMap st)
  | None =>
      fuzzyLoop denom (JsMap.entries (assetInfoMap st)) None
        (denomExponentMap st)
  end.

Record FormattedBalance : Type := mkFormattedBalance {
  fb_amount : string;
  fb_convertedAmount : option Q;
  fb_denom : string;
  fb_baseDenom : string;
  fb_isIBC : bool;
  fb_isConverted : bool;
  fb_exponent : option Z
}.

(** [formatBalance]: the formatted record and the state after the call
    (the exponent map is shared and mutated).  The presentation-only
    fields [formattedAmount], [rawFormattedAmount] and [formattedDenom]
    are left out. *)
Definition formatBalance (st : Precision) (balance : Coin)
  : FormattedBalance * Precision :=
  let '(exponent, expMap) := resolveExponent st (denom balance) in
  let c := Amount.getConvertedAmount (amount balance) (denom balance) exponent in
  (mkFormattedBalance
     (amount balance)
     (Amount.converted c)
     (denom balance)
     (Amount.base c)
     (Str.startsWith (denom balance) "ibc/")
     (match exponent with Some _ => true | None => false end
      || Str.startsWith (denom balance) "u"
      || Str.startsWith (denom balance) "a")
     exponent,
   mkPrecision (assetInfoMap st) expMap).

Record FormattedAsset : Type := mkFormattedAsset {
  fa_symbol : string;
  fa_size : string;
  fa_convertedSize : option Q;
  fa_side : Indexer.Side;
  fa_assetInfo : option AssetInfo;
  fa_exponent : option Z
}.

(** [formatSubaccountAsset] *)
Definition formatSubaccountAsset (st : Precision)
    (position : Indexer.AssetPosition) : FormattedAsset :=
  let symbol := Indexer.symbol position in
  let assetInfo := JsMap.get (assetInfoMap st) symbol in
  let size :=
    if Str.truthy (Indexer.size position) then Indexer.size position else "0" in
  let exponent :=
    match JsMap.get (denomExponentMap st) symbol, assetInfo with
    | Some e, _ => Some e
    | None, Some info => precedenceExponent info
    | None, None => None
    end in
  let c := Amount.getConvertedAmount size symbol exponent in
  mkFormattedAsset symbol size (Amount.converted c) (Indexer.side position)
    assetInfo exponent.

(* ------------------------------------------------------------------ *)
(** *** Native and IBC tokens, totals *)

Definition nativeTokens (balances : list Coin) : list Coin :=
  filter (fun balance => negb (Str.includes (denom balance) "/")) balances.

Definition ibcTokens (balances : list Coin) : list Coin :=
  filter (fun balance => Str.includes (denom balance) "/") balances.

Definition nativeStakedToken (stakedBalance : option Coin) : option Coin :=
  match stakedBalance with
  | Some c => if negb (Str.includes (denom c) "/") then Some c else None
  | None => None
  end.

Definition stakedForThisToken (stakedBalance : option Coin) (balance : Coin)
  : option Coin :=
  match nativeStakedToken stakedBalance with
  | Some s => if String.eqb (denom s) (denom balance) then Some s else None
  | None => None
  end.

(** [totalAmount] of a native-token row:
    [(parseFloat(balance.amount) + parseFloat(staked.amount)).toString()]
    when there is a delegation in the same denom, the amount string itself
    otherwise. *)
Definition totalAmount (stakedBalance : option Coin) (balance : Coin)
  : option string :=
  match stakedForThisToken stakedBalance balance with
  | Some staked =>
      match JsNumber.parseFloat (amount balance),
            JsNumber.parseFloat (amount staked) with
      | Some x, Some y => JsNumber.toString (JsNumber.add x y)
      | _, _ => None
      end
  | None => Some (amount balance)
  end.

(** The sum of the two raw amounts in exact decimal arithmetic. *)
Definition exactTotal (stakedBalance : option Coin) (balance : Coin)
  : option string :=
  match stakedForThisToken stakedBalance balance with
  | Some staked =>
      match Amount.parse (amount balance), Amount.parse (amount staked) with
      | Some a, Some b => Some (JsNumber.digitsOf (a + b))
      | _, _ => None
      end
  | None => Some (amount balance)
  end.

(* ------------------------------------------------------------------ *)
(** *** Pagination of the IBC tokens *)

Record Paging : Type := mkPaging {
  balances : list Coin;
  currentPage : Z;
  itemsPerPage : Z
}.

(** [Math.ceil(n / d)] for a length [n] and a page size [d > 0]. *)
Definition ceilDiv (n d : Z) : Z := - ((- n) / d).

(** [Array.prototype.slice(start, end)] *)
Definition slice {A} (l : list A) (start stop : Z) : list A :=
  let len := Z.of_nat (List.length l) in
  let k := if (start <? 0)%Z then Z.max (len + start) 0 else Z.min start len in
  let final := if (stop <? 0)%Z then Z.max (len + stop) 0 else Z.min stop len in
  firstn (Z.to_nat (final - k)) (skipn (Z.to_nat k) l).

Definition ibcCount (pg : Paging) : Z :=
  Z.of_nat (List.length (ibcTokens (balances pg))).

Definition totalPages (pg : Paging) : Z := ceilDiv (ibcCount pg) (itemsPerPage pg).

Definition startIndex (pg : Paging) : Z := (currentPage pg - 1) * itemsPerPage pg.

Definition endIndex (pg : Paging) : Z := startIndex pg + itemsPerPage pg.

Definition paginatedIbcTokens (pg : Paging) : list Coin :=
  slice (ibcTokens (balances pg)) (startIndex pg) (endIndex pg).

Definition showingStart (pg : Paging) : Z :=
  if (ibcCount pg >? 0)%Z then startIndex pg + 1 else 0.

Definition showingEnd (pg : Paging) : Z := Z.min (endIndex pg) (ibcCount pg).

Definition setCurrentPage (pg : Paging) (page : Z) : Paging :=
  mkPaging (balances pg) page (itemsPerPage pg).

(** [handlePageChange] *)
Definition handlePageChange (pg : Paging) (page : Z) : Paging :=
  setCurrentPage pg (Z.max 1 (Z.min page (totalPages pg))).

(** The effect on [ibcTokens.length, totalPages, currentPage]. *)
Definition tokensEffect (pg : Paging) : Paging :=
  if (currentPage pg >? totalPages pg)%Z && (totalPages pg >? 0)%Z
  then setCurrentPage pg 1 else pg.

(** The effect on [itemsPerPage]. *)
Definition itemsPerPageEffect (pg : Paging) : Paging := setCurrentPage pg 1.

(** [handleItemsPerPageChange] followed by the effects it triggers: a
    changed page size runs the page-size effect, then the token effect. *)
Definition handleItemsPerPageChange (pg : Paging) (newItemsPerPage : Z)
  : Paging :=
  if (newItemsPerPage =? itemsPerPage pg)%Z then pg
  else
    tokensEffect
      (itemsPerPageEffect (mkPaging (balances pg) (currentPage pg) newItemsPerPage)).

(** [setBalances] followed by the token effect. *)
Definition setBalances (pg : Paging) (newBalances : list Coin) : Paging :=
  tokensEffect (mkPaging newBalances (currentPage pg) (itemsPerPage pg)).

(* ------------------------------------------------------------------ *)
(** *** Transaction decoding *)

(** [Any] message of a transaction body. *)
Record AnyMsg : Type := mkAnyMsg {
  typeUrl : string;
  value : string
}.

Record TxBody : Type := mkTxBody { messages : list AnyMsg }.

Record TxData : Type := mkTxData { body : option TxBody }.

Record TxResponse : Type := mkTxResponse {
  hash : string;
  height : Z;
  tx : string
}.

Section Decoding.

(** The decoded message type and the two decoders are collaborators;
    [None] stands for a call that throws. *)
Variable DecodeMsg : Type.
Variable Tx_decode : string -> option TxData.
Variable decodeMsg : string -> string -> option DecodeMsg.

(** The inner [for (const message of ...)] loop; [msgs] is the array being
    pushed to. *)
Fixpoint decodeMessages (msgList : list AnyMsg) (msgs : list DecodeMsg)
  : list DecodeMsg :=
  match msgList with
  | [] => msgs
  | message :: rest =>
      match decodeMsg (typeUrl message) (value message) with
      | Some msg => decodeMessages rest (msgs ++ [msg])
      | None => decodeMessages rest msgs
      end
  end.

(** The outer [for (const tx of transactions)] loop. *)
Fixpoint decodeLoop (txs : list TxResponse)
    (decoded : list (TxResponse * list DecodeMsg))
  : list (TxResponse * list DecodeMsg) :=
  match txs with
  | [] => decoded
  | t :: rest =>
      match Tx_decode (tx t) with
      | Some txData =>
          let msgList :=
            match body txData with
            | Some b => messages b
            | None => []
            end in
          decodeLoop rest (decoded ++ [(t, decodeMessages msgList [])])
      | None => decodeLoop rest decoded
      end
  end.

Record TxState : Type := mkTxState {
  transactions : list TxResponse;
  decodedTxs : list (TxResponse * list DecodeMsg)
}.

(** The effect on [transactions]. *)
Definition decodeEffect (st : TxState) : TxState :=
  if (0 <? List.length (transactions st))%nat
  then mkTxState (transactions st) (decodeLoop (transactions st) [])
  else st.

End Decoding.

(* ------------------------------------------------------------------ *)
(** *** Asset symbols, page buttons, native rows *)

(** [Set.prototype.add]: insertion order, no duplicates. *)
Definition setAdd (set : list string) (x : string) : list string :=
  if existsb (String.eqb x) set then set else (set ++ [x])%list.

(** The symbols collected from the subaccount assets before the metadata
    query: every position with a truthy symbol adds it to the set. *)
Definition collectSymbols (data : list (Z * list Indexer.AssetPosition))
  : list string :=
  fold_left
    (fun acc entry =>
       fold_left
         (fun acc pos =>
            if Str.truthy (Indexer.symbol pos) then setAdd acc (Indexer.symbol pos)
            else acc)
         (snd entry) acc)
    data [].

(** The metadata service is queried only for a non-empty set. *)
Definition queriesMetadata (data : list (Z * list Indexer.AssetPosition)) : bool :=
  (0 <? List.length (collectSymbols data))%nat.

(** The number on the [i]-th page button. *)
Definition pageNum (total current i : Z) : Z :=
  if (total <=? 5)%Z then i + 1
  else if (current <=? 3)%Z then i + 1
  else if (current >=? total - 2)%Z then total - 4 + i
  else current - 2 + i.

(** The expression
    [Array.from({ length: Math.min(5, totalPages) }, (_, i) => pageNum)];
    the component evaluates it only under its render guards, see
    [shownPageButtons]. *)
Definition pageButtons (pg : Paging) : list Z :=
  map (fun i => pageNum (totalPages pg) (currentPage pg) (Z.of_nat i))
      (seq 0 (Z.to_nat (Z.min 5 (totalPages pg)))).

(** The numbered page buttons that are rendered: the expression sits
    inside [ibcTokens.length > 0 && ...] and [totalPages > 1 && ...]. *)
Definition shownPageButtons (pg : Paging) : list Z :=
  if (ibcCount pg >? 0)%Z && (totalPages pg >? 1)%Z then pageButtons pg else [].

(** A row of the native-token table: the denom, the available raw amount,
    the delegation shown in the row and the raw total. *)
Record NativeRow : Type := mkNativeRow {
  row_denom : string;
  row_available : string;
  row_delegated : option Coin;
  row_total : option string
}.

(** The rows of the native-token table: one per native balance; without
    any native balance, one row for the delegation alone. *)
Definition nativeRows (bals : list Coin) (stakedBalance : option Coin)
  : list NativeRow :=
  match nativeTokens bals with
  | [] =>
      match nativeStakedToken stakedBalance with
      | Some s => [mkNativeRow (denom s) "0" (Some s) (Some (amount s))]
      | None => []
      end
  | tokens =>
      map (fun balance =>
             mkNativeRow (denom balance) (amount balance)
               (stakedForThisToken stakedBalance balance)
               (totalAmount stakedBalance balance))
          tokens
  end.

End Account.

(* ================================================================== *)
(** ** Connect: connection lifecycle *)
(* ================================================================== *)

Module Connect.

(** Clients and subscription objects are identified by the order in
    which they were created. *)
Definition Client : Type := nat.
Definition Handle : Type := nat.

Inductive Stream : Type := NewBlock | TxEvent.

Definition Stream_eqb (a b : Stream) : bool :=
  match a, b with
  | NewBlock, NewBlock => true
  | TxEvent, TxEvent => true
  | _, _ => false
  end.

(** The [state] of the component. *)
Inductive Status : Type := initial | submitting | success.

(** The three slices of the store that [connectClient] dispatches to. *)
Record ConnectSlice : Type := mkConnectSlice {
  connectState : bool;
  tmClient : option Client;
  rpcAddress : option string
}.

Record StreamSlice : Type := mkStreamSlice {
  newBlock : option string;
  txEvent : option string;
  subsNewBlock : option Handle;
  subsTxEvent : option Handle
}.

Record ParamsSlice : Type := mkParamsSlice {
  stakingParams : option string;
  mintParams : option string;
  distributionParams : option string;
  slashingParams : option string;
  govVotingParams : option string;
  govDepositParams : option string;
  govTallyParams : option string
}.

Record Store : Type := mkStore {
  connect : ConnectSlice;
  stream : StreamSlice;
  params : ParamsSlice
}.

(** What the collaborators did, in order. *)
Inductive Effect : Type :=
| Unsubscribed (h : Handle)
| Disconnected (c : Client)
| Connected (c : Client)
| Subscribed (s : Stream) (h : Handle) (c : Client).

(** The world [connectClient] runs in: the store, the component's local
    state, the effects so far and the next object identity. *)
Record World : Type := mkWorld {
  store : Store;
  status : Status;
  error : bool;
  log : list Effect;
  nextId : nat
}.

(** The subscriptions of a stream that are active after a log, each with
    the client it was made on: created, not unsubscribed since, and the
    client not disconnected since. *)
Definition step (s : Stream) (acc : list (Handle * Client)) (e : Effect)
  : list (Handle * Client) :=
  match e with
  | Subscribed s' h c => if Stream_eqb s s' then acc ++ [(h, c)] else acc
  | Unsubscribed h => filter (fun x => negb (Nat.eqb (fst x) h)) acc
  | Disconnected c => filter (fun x => negb (Nat.eqb (snd x) c)) acc
  | Connected _ => acc
  end.

Definition activeOn (s : Stream) (l : list Effect) : list (Handle * Client) :=
  fold_left (step s) l [].

(** *** State and exceptions *)

Inductive Result (A : Type) : Type :=
| Ok (a : A)
| Exn.

Arguments Ok {A} a.
Arguments Exn {A}.

(** A computation changes the world and ends normally or by throwing;
    what it did before throwing stays done. *)
Definition M (A : Type) : Type := World -> Result A * World.

Definition ret {A} (a : A) : M A := fun w => (Ok a, w).

Definition bind {A B} (m : M A) (k : A -> M B) : M B :=
  fun w =>
    match m w with
    | (Ok a, w') => k a w'
    | (Exn, w') => (Exn, w')
    end.

Definition tryCatch {A} (body handler : M A) : M A :=
  fun w =>
    match body w with
    | (Ok a, w') => (Ok a, w')
    | (Exn, w') => handler w'
    end.

Notation "x <- c1 ;; c2" := (bind c1 (fun x => c2))
  (at level 61, c1 at next level, right associativity).
Notation "c1 ;; c2" := (bind c1 (fun _ => c2))
  (at level 61, right associativity).

Definition setError (b : bool) : M unit :=
  fun w => (Ok tt, mkWorld (store w) (status w) b (log w) (nextId w)).

Definition setState (s : Status) : M unit :=
  fun w => (Ok tt, mkWorld (store w) s (error w) (log w) (nextId w)).

Definition dispatch (action : Store -> Store) : M unit :=
  fun w => (Ok tt, mkWorld (action (store w)) (status w) (error w) (log w) (nextId w)).

Definition emit (e : Effect) : M unit :=
  fun w => (Ok tt, mkWorld (store w) (status w) (error w) (log w ++ [e]) (nextId w)).

Definition fresh : M nat :=
  fun w => (Ok (nextId w), mkWorld (store w) (status w) (error w) (log w) (S (nextId w))).

(** *** Actions *)

Definition setConnectState (b : bool) (st : Store) : Store :=
  mkStore (mkConnectSlice b (tmClient (connect st)) (rpcAddress (connect st)))
    (stream st) (params st).

Definition setTmClient (c : option Client) (st : Store) : Store :=
  mkStore (mkConnectSlice (connectState (connect st)) c (rpcAddress (connect st)))
    (stream st) (params st).

Definition setRPCAddress (a : string) (st : Store) : Store :=
  mkStore (mkConnectSlice (connectState (connect st)) (tmClient (connect st)) (Some a))
    (stream st) (params st).

Definition setNewBlock (e : option string) (st : Store) : Store :=
  mkStore (connect st)
    (mkStreamSlice e (txEvent (stream st)) (subsNewBlock (stream st))
       (subsTxEvent (stream st)))
    (params st).

Definition setTxEvent (e : option string) (st : Store) : Store :=
  mkStore (connect st)
    (mkStreamSlice (newBlock (stream st)) e (subsNewBlock (stream st))
       (subsTxEvent (stream st)))
    (params st).

Definition setSubsNewBlock (h : option Handle) (st : Store) : Store :=
  mkStore (connect st)
    (mkStreamSlice (newBlock (stream st)) (txEvent (stream st)) h
       (subsTxEvent (stream st)))
    (params st).

Definition setSubsTxEvent (h : option Handle) (st : Store) : Store :=
  mkStore (connect st)
    (mkStreamSlice (newBlock (stream st)) (txEvent (stream st))
       (subsNewBlock (stream st)) h)
    (params st).

Definition setStakingParams (p : option string) (st : Store) : Store :=
  let q := params st in
  mkStore (connect st) (stream st)
    (mkParamsSlice p (mintParams q) (distributionParams q) (slashingParams q)
       (govVotingParams q) (govDepositParams q) (govTallyParams q)).

Definition setMintParams (p : option string) (st : Store) : Store :=
  let q := params st in
  mkStore (connect st) (stream st)
    (mkParamsSlice (stakingParams q) p (distributionParams q) (slashingParams q)
       (govVotingParams q) (govDepositParams q) (govTallyParams q)).

Definition setDistributionParams (p : option string) (st : Store) : Store :=
  let q := params st in
  mkStore (connect st) (stream st)
    (mkParamsSlice (stakingParams q) (mintParams q) p (slashingParams q)
       (govVotingParams q) (govDepositParams q) (govTallyParams q)).

Definition setSlashingParams (p : option string) (st : Store) : Store :=
  let q := params st in
  mkStore (connect st) (stream st)
    (mkParamsSlice (stakingParams q) (mintParams q) (distributionParams q) p
       (govVotingParams q) (govDepositParams q) (govTallyParams q)).

Definition setGovVotingParams (p : option string) (st : Store) : Store :=
  let q := params st in
  mkStore (connect st) (stream st)
    (mkParamsSlice (stakingParams q) (mintParams q) (distributionParams q)
       (slashingParams q) p (govDepositParams q) (govTallyParams q)).

Definition setGovDepositParams (p : option string) (st : Store) : Store :=
  let q := params st in
  mkStore (connect st) (stream st)
    (mkParamsSlice (stakingParams q) (mintParams q) (distributionParams q)
       (slashingParams q) (govVotingParams q) p (govTallyParams q)).

Definition setGovTallyParams (p : option string) (st : Store) : Store :=
  let q := params st in
  mkStore (connect st) (stream st)
    (mkParamsSlice (stakingParams q) (mintParams q) (distributionParams q)
       (slashingParams q) (govVotingParams q) (govDepositParams q) p).

(** *** Collaborators *)

Inductive Outcome (A : Type) : Type :=
| Returns (a : A)
| Throws.

Arguments Returns {A} a.
Arguments Throws {A}.

(** How the RPC collaborators behave during one call of [connectClient].
    [connectWebsocketClient] returns [true] for a client and [false] for
    [null]; the other calls return or throw. *)
Record Env : Type := mkEnv {
  validateConnection : string -> Outcome bool;
  connectWebsocketClient : string -> Outcome bool;
  unsubscribe : Handle -> Outcome unit;
  disconnect : Client -> Outcome unit;
  subscribeNewBlock : Client -> Outcome unit;
  subscribeTx : Client -> Outcome unit
}.

Definition call {A} (o : Outcome A) : M A :=
  fun w =>
    match o with
    | Returns a => (Ok a, w)
    | Throws => (Exn, w)
    end.

Definition doUnsubscribe (env : Env) (h : Handle) : M unit :=
  call (unsubscribe env h) ;; emit (Unsubscribed h).

Definition doDisconnect (env : Env) (c : Client) : M unit :=
  call (disconnect env c) ;; emit (Disconnected c).

Definition doConnect (env : Env) (addr : string) : M (option Client) :=
  created <- call (connectWebsocketClient env addr) ;;
  if created : bool then (c <- fresh ;; emit (Connected c) ;; ret (Some c))
  else ret None.

Definition doSubscribe (o : Outcome unit) (s : Stream) (c : Client) : M Handle :=
  call o ;; h <- fresh ;; emit (Subscribed s h c) ;; ret h.

(** The values [connectClient] closes over: the selectors of the render
    that created it. *)
Record Captured : Type := mkCaptured {
  currentSubsNewBlock : option Handle;
  currentSubsTxEvent : option Handle;
  currentTmClient : option Client
}.

Definition capture (st : Store) : Captured :=
  mkCaptured (subsNewBlock (stream st)) (subsTxEvent (stream st))
    (tmClient (connect st)).

(** [connectClient] *)
Definition connectClient (env : Env) (cur : Captured) (addr : string) : M unit :=
  tryCatch
    (setError false ;;
     setState submitting ;;
     if negb (Str.truthy addr) then (setError true ;; setState initial)
     else
       (isValid <- call (validateConnection env addr) ;;
        if negb isValid then (setError true ;; setState initial)
        else
          ((match currentSubsNewBlock cur with
            | Some sub => doUnsubscribe env sub ;; dispatch (setSubsNewBlock None)
            | None => ret tt
            end) ;;
           (match currentSubsTxEvent cur with
            | Some sub => doUnsubscribe env sub ;; dispatch (setSubsTxEvent None)
            | None => ret tt
            end) ;;
           (match currentTmClient cur with
            | Some c => tryCatch (doDisconnect env c) (ret tt)
            | None => ret tt
            end) ;;
           dispatch (setNewBlock None) ;;
           dispatch (setTxEvent None) ;;
           dispatch (setStakingParams None) ;;
           dispatch (setMintParams None) ;;
           dispatch (setDistributionParams None) ;;
           dispatch (setSlashingParams None) ;;
           dispatch (setGovVotingParams None) ;;
           dispatch (setGovDepositParams None) ;;
           dispatch (setGovTallyParams None) ;;
           client <- doConnect env addr ;;
           match client with
           | None => setError true ;; setState initial
           | Some c =>
               dispatch (setConnectState true) ;;
               dispatch (setTmClient (Some c)) ;;
               dispatch (setRPCAddress addr) ;;
               newBlockSub <- doSubscribe (subscribeNewBlock env c) NewBlock c ;;
               txSub <- doSubscribe (subscribeTx env c) TxEvent c ;;
               dispatch (setSubsNewBlock (Some newBlockSub)) ;;
               dispatch (setSubsTxEvent (Some txSub)) ;;
               setState success
           end)))
    (setError true ;; setState initial).

(** The store before any connection. *)
Definition disconnectedStore : Store :=
  mkStore (mkConnectSlice false None None)
    (mkStreamSlice None None None None)
    (mkParamsSlice None None None None None None None).

(** The store is fully disconnected: no flag, no client, no handle. *)
Definition fullyDisconnected (st : Store) : Prop :=
  connectState (connect st) = false
  /\ tmClient (connect st) = None
  /\ subsNewBlock (stream st) = None
  /\ subsTxEvent (stream st) = None.

(** The connected flag and the subscription handles disagree. *)
Definition halfConnected (st : Store) : Prop :=
  (connectState (connect st) = true
   /\ (subsNewBlock (stream st) = None \/ subsTxEvent (stream st) = None))
  \/ (connectState (connect st) = false
      /\ (subsNewBlock (stream st) <> None \/ subsTxEvent (stream st) <> None)).

(** The handle the store holds for a stream. *)
Definition held (st : Store) (s : Stream) : option Handle :=
  match s with
  | NewBlock => subsNewBlock (stream st)
  | TxEvent => subsTxEvent (stream st)
  end.

(** The invariant of the connection state: per stream at most one
    subscription is active; an active subscription is the one the store
    holds or was made on the client the store holds; and every object
    that the store or an active subscription refers to has been
    created. *)
Definition consistent (w : World) : Prop :=
  (forall s, (List.length (activeOn s (log w)) <= 1)%nat)
  /\ (forall s h c, In (h, c) (activeOn s (log w)) ->
        held (store w) s = Some h \/ tmClient (connect (store w)) = Some c)
  /\ (forall s h c, In (h, c) (activeOn s (log w)) -> (h < nextId w)%nat)
  /\ (forall s h, held (store w) s = Some h -> (h < nextId w)%nat).

(** No subscription is active that the store does not hold. *)
Definition leakFree (w : World) : Prop :=
  forall s h c, In (h, c) (activeOn s (log w)) -> held (store w) s = Some h.

(** The effects of tearing down what the store holds: both handles are
    unsubscribed, then the client is disconnected (an exception of
    [disconnect] is caught and leaves no effect). *)
Definition teardown (env : Env) (st : Store) : list Effect :=
  (match subsNewBlock (stream st) with Some h => [Unsubscribed h] | None => [] end)
  ++ (match subsTxEvent (stream st) with Some h => [Unsubscribed h] | None => [] end)
  ++ (match tmClient (connect st) with
      | Some c =>
          match disconnect env c with
          | Returns _ => [Disconnected c]
          | Throws => []
          end
      | None => []
      end).

(** The world when the page is loaded. *)
Definition initialWorld : World := mkWorld disconnectedStore initial false [] 0.

End Connect.

(* ================================================================== *)
(** ** Sample data *)
(* ================================================================== *)

Module Sample.

Import Metadata Account.

(** Metadata records as the services return them: a perpetual-market
    asset with a negative atomic resolution, and tokens with decimals. *)
Definition usdcInfo : AssetInfo :=
  mkAssetInfo "USDC" "USD Coin" (Some 6) (Some (-6)) (Some 6).

Definition btcInfo : AssetInfo :=
  mkAssetInfo "BTC" "Bitcoin" None (Some (-10)) None.

Definition wbtcInfo : AssetInfo :=
  mkAssetInfo "WBTC" "Wrapped Bitcoin" (Some 8) None None.

Definition ethInfo : AssetInfo :=
  mkAssetInfo "ETH" "Ether" (Some 18) None (Some 9).

Definition assets : list (string * AssetInfo) :=
  [("BTC", btcInfo); ("WBTC", wbtcInfo); ("ETH", ethInfo); ("USDC", usdcInfo)].

Definition wbtcCoin : Coin := mkCoin "250000000" "wbtc-satoshi".

Definition dydxCoin : Coin := mkCoin "9007199254740992" "adydx".

Definition dydxStaked : Coin := mkCoin "1" "adydx".

Definition usdcCoin : Coin := mkCoin "1500000" "uusdc".

Definition usdcPosition : Indexer.AssetPosition :=
  Indexer.mkAssetPosition "USDC" Indexer.LONG "1500000" "0" (Some 0).

Definition btcPosition : Indexer.AssetPosition :=
  Indexer.mkAssetPosition "BTC" Indexer.SHORT "25" "1" (Some 0).

(** A metadata response without any asset that matches "uusdc". *)
Definition bitcoinOnly : list (string * AssetInfo) :=
  [("BTC", btcInfo); ("WBTC", wbtcInfo)].

(** 1000 DYDX available and one minimal unit delegated. *)
Definition dydxLarge : Coin := mkCoin "1000000000000000000000" "adydx".

(** A 200 response whose body cannot be read: the connection is lost
    while the body is streamed. *)
Definition brokenBody {J : Type} : Http.Promise (Http.Response J) :=
  Http.Resolved (Http.mkResponse 200 Http.Rejected Http.Rejected).

(** 23 IBC tokens and two native ones. *)
Definition ibc23 : list Coin :=
  mkCoin "5" "adydx"
  :: map (fun i => mkCoin "1" ("ibc/" ++ JsNumber.digitsOf (Z.of_nat i))) (seq 0 23)
  ++ [mkCoin "7" "uusdc"].

(** Collaborator decoders: an envelope "bad" does not decode, and only
    bank sends are known message types. *)
Definition sendMsg : AnyMsg := mkAnyMsg "/cosmos.bank.v1beta1.MsgSend" "0a2d".

Definition unknownMsg : AnyMsg := mkAnyMsg "/unknown.v1.MsgMystery" "ff".

Definition sampleTxDecode (bytes : string) : option TxData :=
  if String.eqb bytes "bad" then None
  else Some (mkTxData (Some (mkTxBody [sendMsg; unknownMsg]))).

Definition sampleDecodeMsg (url : string) (bytes : string) : option string :=
  if String.eqb url "/cosmos.bank.v1beta1.MsgSend" then Some bytes else None.

Definition goodTx : TxResponse := mkTxResponse "A1" 100 "0a9001".

Definition badTx : TxResponse := mkTxResponse "B2" 101 "bad".

(** A node that validates and connects; the transaction subscription
    cannot be set up. *)
Definition txSubscriptionFails : Connect.Env :=
  Connect.mkEnv
    (fun _ => Connect.Returns true)
    (fun _ => Connect.Returns true)
    (fun _ => Connect.Returns tt)
    (fun _ => Connect.Returns tt)
    (fun _ => Connect.Returns tt)
    (fun _ => Connect.Throws).

(** A node where every call succeeds. *)
Definition healthy : Connect.Env :=
  Connect.mkEnv
    (fun _ => Connect.Returns true)
    (fun _ => Connect.Returns true)
    (fun _ => Connect.Returns tt)
    (fun _ => Connect.Returns tt)
    (fun _ => Connect.Returns tt)
    (fun _ => Connect.Returns tt).

(** A node that does not answer the validation request. *)
Definition unreachable : Connect.Env :=
  Connect.mkEnv
    (fun _ => Connect.Returns false)
    (fun _ => Connect.Throws)
    (fun _ => Connect.Returns tt)
    (fun _ => Connect.Returns tt)
    (fun _ => Connect.Throws)
    (fun _ => Connect.Throws).

Definition rpc : string := "https://dydx2.forcast.money".

(** The world after a first attempt in which the transaction
    subscription could not be set up. *)
Definition halfConnectedWorld : Connect.World :=
  snd (Connect.connectClient txSubscriptionFails
         (Connect.capture Connect.disconnectedStore) rpc Connect.initialWorld).

(** A node where every call succeeds except [disconnect], which
    throws. *)
Definition disconnectThrows : Connect.Env :=
  Connect.mkEnv
    (fun _ => Connect.Returns true)
    (fun _ => Connect.Returns true)
    (fun _ => Connect.Returns tt)
    (fun _ => Connect.Throws)
    (fun _ => Connect.Returns tt)
    (fun _ => Connect.Returns tt).

(** The world after a first successful connection. *)
Definition connectedWorld : Connect.World :=
  snd (Connect.connectClient healthy
         (Connect.capture Connect.disconnectedStore) rpc Connect.initialWorld).

(** A 200 answer to the parent-subaccount request with two child
    subaccounts, the second without positions. *)
Definition parentOk
  : Http.Promise (Http.Response Indexer.ParentSubaccountResponse) :=
  Http.Resolved
    (Http.mkResponse 200 (Http.Resolved "")
       (Http.Resolved
          (Indexer.mkParentSubaccountResponse
             (Some (Indexer.mkParentSubaccount "dydx1abc" 0
                      (Some [Indexer.mkSubaccount "dydx1abc" 0
                               (Some [("USDC", usdcPosition)]);
                             Indexer.mkSubaccount "dydx1abc" 128 None])))))).

End Sample.

(* ================================================================== *)
(** ** The properties as the specification words them *)
(* ================================================================== *)

Module Stated.

Import Metadata Account.

(** [sub] occurs in [s]. *)
Definition Occurs (sub s : string) : Prop :=
  exists pre post, s = pre ++ sub ++ post.

(** The fuzzy rule as specified: the first symbol, in the insertion order
    of the metadata map, such that after lowercasing both the denom
    contains the symbol or the symbol contains the denom; its exponent is
    the one used. *)
Definition firstMatchExponent (st : Precision) (denom : string) : option Z :=
  let denomLower := Str.toLowerCase denom in
  match
    find (fun entry =>
            let symbolLower := Str.toLowerCase (fst entry) in
            Str.includes denomLower symbolLower
            || Str.includes symbolLower denomLower)
         (JsMap.entries (assetInfoMap st))
  with
  | Some (_, info) => precedenceExponent info
  | None => None
  end.

(** The fuzzy rule as the loop applies it: the first symbol, in insertion
    order, that matches and whose exponent is defined and positive. *)
Definition firstPositiveMatch (st : Precision) (denom : string)
  : option (string * AssetInfo) :=
  find (fun entry =>
          fuzzyMatch denom (fst entry)
          && definedPositive (precedenceExponent (snd entry)))
       (JsMap.entries (assetInfoMap st)).

(** The precision state after [formatBalance] has been called on each of
    the balances in turn, as a render of the page does. *)
Definition afterBalances (st : Precision) (calls : list Coin) : Precision :=
  fold_left (fun st balance => snd (formatBalance st balance)) calls st.

Section DecodingStated.

Variable DecodeMsg : Type.
Variable Tx_decode : string -> option TxData.
Variable decodeMsg : string -> string -> option DecodeMsg.

(** The messages of a list that decode, in order; the others are left
    out. *)
Definition decodable (msgList : list AnyMsg) : list DecodeMsg :=
  flat_map (fun message =>
              match decodeMsg (typeUrl message) (value message) with
              | Some msg => [msg]
              | None => []
              end) msgList.

(** [txData.body?.messages || []] *)
Definition messagesOf (txData : TxData) : list AnyMsg :=
  match body txData with
  | Some b => messages b
  | None => []
  end.

(** The transactions whose envelope decodes, each with its decodable
    messages. *)
Definition decodedSet (txs : list TxResponse)
  : list (TxResponse * list DecodeMsg) :=
  flat_map (fun t =>
              match Tx_decode (tx t) with
              | Some txData => [(t, decodable (messagesOf txData))]
              | None => []
              end) txs.

End DecodingStated.

(** Every value of an exponent map is strictly positive. *)
Definition allPositive (m : JsMap.t Z) : Prop :=
  Forall (fun kv => 0 < snd kv) m.

End Stated.

(* ================================================================== *)
(** ** Derived notions used in the statements *)
(* ================================================================== *)

Module Derived.

Import Metadata Account.

(** The child subaccounts that the answer to a parent-subaccount request
    carries: those of a 2xx response whose body parses and has them. *)
Definition carriedChildren
    (fetched : Http.Promise (Http.Response Indexer.ParentSubaccountResponse))
  : list Indexer.Subaccount :=
  match fetched with
  | Http.Resolved r =>
      if Http.ok r then
        match Http.json r with
        | Http.Resolved data =>
            match Indexer.subaccount data with
            | Some sa =>
                match Indexer.childSubaccounts sa with
                | Some l => l
                | None => []
                end
            | None => []
            end
        | Http.Rejected => []
        end
      else []
  | Http.Rejected => []
  end.

(** The entries of a metadata response that ingestion puts into the
    exponent map. *)
Definition positiveEntries (assetInfo : list (string * AssetInfo))
  : list (string * Z) :=
  flat_map (fun entry =>
              match precedenceExponent (snd entry) with
              | Some e => if (0 <? e)%Z then [(fst entry, e)] else []
              | None => []
              end) assetInfo.

(** The pages of the IBC table, first to last. *)
Definition allPages (pg : Paging) : list (list Coin) :=
  map (fun k => paginatedIbcTokens (setCurrentPage pg (Z.of_nat k + 1)))
      (seq 0 (Z.to_nat (totalPages pg))).

(** The subaccount groups that the page renders: those with at least one
    position (the section guard [subaccountAssets.length > 0] excludes
    only the empty list, which has no group). *)
Definition shownGroups (data : list (Z * list Indexer.AssetPosition))
  : list (Z * list Indexer.AssetPosition) :=
  filter (fun g => negb (Nat.eqb (List.length (snd g)) 0)) data.

(** Whether the "No subaccount assets found" message is rendered:
    [subaccountAssets.every(({ positions }) => positions.length === 0)]
    inside the section guard [subaccountAssets.length > 0]. *)
Definition showsNoAssets (data : list (Z * list Indexer.AssetPosition)) : bool :=
  (0 <? List.length data)%nat
  && forallb (fun g => Nat.eqb (List.length (snd g)) 0) data.

End Derived.

(* ================================================================== *)
(** * Theorems *)
(* ================================================================== *)

Import Metadata Account Stated.
Import Derived.

(** ** Strings and maps *)

Section StringFacts.

Lemma prefix_occurs (p s : string) :
  String.prefix p s = true -> exists post, s = p ++ post.
Proof.
  revert s. induction p as [|c p IH]; intros s H.
  - exists s. reflexivity.
  - destruct s as [|d s]; simpl in H; [discriminate|].
    destruct (Ascii.ascii_dec c d) as [->|]; [|discriminate].
    destruct (IH s H) as [post ->]. exists post. reflexivity.
Qed.

Lemma occurs_prefix (p post : string) : String.prefix p (p ++ post) = true.
Proof.
  induction p as [|c p IH]; simpl.
  - destruct post; reflexivity.
  - destruct (Ascii.ascii_dec c c); [assumption|congruence].
Qed.

Lemma append_empty (s : string) : s ++ "" = s.
Proof. induction s as [|c s IH]; simpl; [reflexivity | now rewrite IH]. Qed.

(** [includes] decides occurrence as a substring. *)
Lemma includes_spec (s sub : string) :
  Str.includes s sub = true <-> Occurs sub s.
Proof.
  split.
  - induction s as [|c s IH].
    + destruct sub; simpl; intros H; [|discriminate].
      exists "", "". reflexivity.
    + change (Str.includes (String c s) sub)
        with (if String.prefix sub (String c s) then true else Str.includes s sub).
      destruct (String.prefix sub (String c s)) eqn:E.
      * intros _. destruct (prefix_occurs _ _ E) as [post E'].
        exists "", post. exact E'.
      * intros H. destruct (IH H) as (pre & post & ->).
        exists (String c pre), post. reflexivity.
  - intros (pre & post & ->). induction pre as [|c pre IH]; simpl.
    + destruct sub as [|d sub]; simpl.
      * destruct post; reflexivity.
      * destruct (Ascii.ascii_dec d d); [|congruence].
        rewrite occurs_prefix. reflexivity.
    + rewrite IH.
      match goal with |- (if ?b then _ else _) = _ => destruct b; reflexivity end.
Qed.

(** The test of the loop is containment in either direction of the
    lowercased strings; the equality test adds nothing. *)
Lemma fuzzyMatch_spec (denom symbol : string) :
  fuzzyMatch denom symbol = true <->
  Occurs (Str.toLowerCase symbol) (Str.toLowerCase denom)
  \/ Occurs (Str.toLowerCase denom) (Str.toLowerCase symbol).
Proof.
  unfold fuzzyMatch. cbv zeta.
  rewrite !orb_true_iff, <- !includes_spec.
  split.
  - intros [[E | H] | H]; auto.
    apply String.eqb_eq in E. left. rewrite E.
    apply includes_spec. exists "", "". simpl.
    symmetry. apply append_empty.
  - intros [H | H]; auto.
Qed.

End StringFacts.

Section MapFacts.

Context {V : Type}.

Lemma get_set_same (m : JsMap.t V) k v : JsMap.get (JsMap.set m k v) k = Some v.
Proof.
  induction m as [|[k' v'] m IH]; simpl.
  - rewrite String.eqb_refl. reflexivity.
  - destruct (String.eqb k' k) eqn:E; simpl; rewrite E; auto.
Qed.

Lemma get_set_other (m : JsMap.t V) k v k' :
  k <> k' -> JsMap.get (JsMap.set m k v) k' = JsMap.get m k'.
Proof.
  intros N. induction m as [|[k0 v0] m IH]; simpl.
  - destruct (String.eqb_spec k k'); congruence.
  - destruct (String.eqb_spec k0 k) as [->|]; simpl.
    + destruct (String.eqb_spec k k'); congruence.
    + destruct (String.eqb_spec k0 k'); auto.
Qed.

Lemma set_In (m : JsMap.t V) k v kv :
  In kv (JsMap.set m k v) -> kv = (k, v) \/ In kv m.
Proof.
  induction m as [|[k0 v0] m IH]; simpl.
  - intros [<-|[]]. auto.
  - destruct (String.eqb_spec k0 k) as [->|]; simpl.
    + intros [<-|H]; auto.
    + intros [<-|H]; auto. destruct (IH H); auto.
Qed.

End MapFacts.

(** ** Precision resolver *)

Section Resolver.

Lemma ingestEntry_infoMap acc symbol info :
  assetInfoMap (ingestEntry acc (symbol, info))
  = JsMap.set (assetInfoMap acc) symbol info.
Proof.
  unfold ingestEntry. destruct (precedenceExponent info) as [e|]; [|reflexivity].
  destruct (0 <? e)%Z; reflexivity.
Qed.

Lemma ingestEntry_expMap acc symbol info :
  denomExponentMap (ingestEntry acc (symbol, info))
  = match precedenceExponent info with
    | Some e =>
        if (0 <? e)%Z then JsMap.set (denomExponentMap acc) symbol e
        else denomExponentMap acc
    | None => denomExponentMap acc
    end.
Proof.
  unfold ingestEntry. destruct (precedenceExponent info) as [e|]; [|reflexivity].
  destruct (0 <? e)%Z; reflexivity.
Qed.

Lemma ingest_fold_notin entries : forall acc k,
  ~ In k (map fst entries) ->
  JsMap.get (assetInfoMap (fold_left ingestEntry entries acc)) k
    = JsMap.get (assetInfoMap acc) k
  /\ JsMap.get (denomExponentMap (fold_left ingestEntry entries acc)) k
    = JsMap.get (denomExponentMap acc) k.
Proof.
  induction entries as [|[s i] entries IH]; intros acc k N; cbn [fold_left];
    [auto|].
  simpl in N. destruct (IH (ingestEntry acc (s, i)) k) as [H1 H2]; [tauto|].
  rewrite H1, H2, ingestEntry_infoMap, ingestEntry_expMap.
  assert (s <> k) by tauto.
  split; [apply get_set_other; assumption|].
  destruct (precedenceExponent i) as [e|]; [|reflexivity].
  destruct (0 <? e)%Z; [apply get_set_other; assumption | reflexivity].
Qed.

Lemma ingest_fold_in entries : forall acc symbol info,
  NoDup (map fst entries) ->
  In (symbol, info) entries ->
  JsMap.get (assetInfoMap (fold_left ingestEntry entries acc)) symbol = Some info
  /\ JsMap.get (denomExponentMap (fold_left ingestEntry entries acc)) symbol
    = if definedPositive (precedenceExponent info) then precedenceExponent info
      else JsMap.get (denomExponentMap acc) symbol.
Proof.
  induction entries as [|[s i] entries IH]; intros acc symbol info ND HIn;
    [destruct HIn|].
  simpl in ND. inversion ND as [|? ? Hnot ND']; subst.
  destruct HIn as [E | HIn].
  - inversion E; subst. cbn [fold_left].
    destruct (ingest_fold_notin entries (ingestEntry acc (symbol, info)) symbol Hnot)
      as [H1 H2].
    rewrite H1, H2, ingestEntry_infoMap, ingestEntry_expMap.
    split; [apply get_set_same|].
    unfold definedPositive. destruct (precedenceExponent info) as [e|]; [|reflexivity].
    destruct (0 <? e)%Z; [apply get_set_same | reflexivity].
  - cbn [fold_left].
    destruct (IH (ingestEntry acc (s, i)) symbol info ND' HIn) as [H1 H2].
    split; [assumption|]. rewrite H2.
    destruct (definedPositive (precedenceExponent info)); [reflexivity|].
    rewrite ingestEntry_expMap.
    assert (s <> symbol).
    { intros ->. apply Hnot. change symbol with (fst (symbol, info)).
      apply in_map. assumption. }
    destruct (precedenceExponent i) as [e|]; [|reflexivity].
    destruct (0 <? e)%Z; [apply get_set_other; assumption | reflexivity].
Qed.

Lemma ingest_fold_entries entries : forall acc kv,
  In kv (assetInfoMap (fold_left ingestEntry entries acc)) ->
  In kv entries \/ In kv (assetInfoMap acc).
Proof.
  induction entries as [|[s i] entries IH]; intros acc kv H;
    cbn [fold_left] in H; [auto|].
  destruct (IH _ _ H) as [H'|H']; [simpl; auto|].
  rewrite ingestEntry_infoMap in H'.
  destruct (set_In _ _ _ _ H'); subst; simpl; auto.
Qed.

(** The loop either leaves the map alone or caches, under the denom, the
    positive exponent of a matching symbol. *)
Lemma fuzzyLoop_map denom entries : forall exponent m,
  snd (fuzzyLoop denom entries exponent m) = m
  \/ exists symbol info e,
       In (symbol, info) entries
       /\ fuzzyMatch denom symbol = true
       /\ precedenceExponent info = Some e
       /\ 0 < e
       /\ fst (fuzzyLoop denom entries exponent m) = Some e
       /\ snd (fuzzyLoop denom entries exponent m) = JsMap.set m denom e.
Proof.
  induction entries as [|[s i] entries IH]; intros exponent m; simpl; [auto|].
  destruct (fuzzyMatch denom s) eqn:FM.
  - destruct (precedenceExponent i) as [e|] eqn:PE.
    + destruct (Z.ltb_spec 0 e).
      * right. exists s, i, e. simpl. auto 10.
      * destruct (IH (Some e) m) as [H'|(s' & i' & e' & H')]; [auto|].
        right. exists s', i', e'. tauto.
    + destruct (IH None m) as [H'|(s' & i' & e' & H')]; [auto|].
      right. exists s', i', e'. tauto.
  - destruct (IH exponent m) as [H'|(s' & i' & e' & H')]; [auto|].
    right. exists s', i', e'. tauto.
Qed.

(** The loop stops at the first matching symbol with a defined positive
    exponent. *)
Lemma fuzzyLoop_find denom entries : forall exponent m symbol info,
  find (fun entry =>
          fuzzyMatch denom (fst entry)
          && definedPositive (precedenceExponent (snd entry))) entries
    = Some (symbol, info) ->
  fuzzyLoop denom entries exponent m
    = (precedenceExponent info,
       match precedenceExponent info with
       | Some e => JsMap.set m denom e
       | None => m
       end).
Proof.
  induction entries as [|[s i] entries IH]; intros exponent m symbol info F;
    simpl in *; [discriminate|].
  unfold definedPositive in F.
  destruct (fuzzyMatch denom s); simpl in F.
  - destruct (precedenceExponent i) as [e|] eqn:PE.
    + destruct (0 <? e)%Z.
      * inversion F; subst. rewrite PE. reflexivity.
      * apply (IH _ _ _ _ F).
    + apply (IH _ _ _ _ F).
  - apply (IH _ _ _ _ F).
Qed.

(** Without such a symbol the loop caches nothing. *)
Lemma fuzzyLoop_none denom entries : forall exponent m,
  find (fun entry =>
          fuzzyMatch denom (fst entry)
          && definedPositive (precedenceExponent (snd entry))) entries = None ->
  snd (fuzzyLoop denom entries exponent m) = m.
Proof.
  induction entries as [|[s i] entries IH]; intros exponent m F; simpl in *;
    [reflexivity|].
  unfold definedPositive in F.
  destruct (fuzzyMatch denom s); simpl in F.
  - destruct (precedenceExponent i) as [e|] eqn:PE.
    + destruct (0 <? e)%Z; [discriminate|]. apply IH. assumption.
    + apply IH. assumption.
  - apply IH. assumption.
Qed.

Lemma formatBalance_infoMap st balance :
  assetInfoMap (snd (formatBalance st balance)) = assetInfoMap st.
Proof.
  unfold formatBalance. destruct (resolveExponent st (denom balance)). reflexivity.
Qed.

Lemma formatBalance_expMap st balance :
  denomExponentMap (snd (formatBalance st balance))
  = snd (resolveExponent st (denom balance)).
Proof.
  unfold formatBalance. destruct (resolveExponent st (denom balance)). reflexivity.
Qed.

Lemma formatBalance_exponent st balance :
  fb_exponent (fst (formatBalance st balance))
  = fst (resolveExponent st (denom balance)).
Proof.
  unfold formatBalance. destruct (resolveExponent st (denom balance)). reflexivity.
Qed.

(** A call of [formatBalance] changes the exponent map at most by one
    entry: the denom, mapped to the positive exponent of a matching
    symbol. *)
Lemma formatBalance_map st balance :
  denomExponentMap (snd (formatBalance st balance)) = denomExponentMap st
  \/ exists symbol info e,
       In (symbol, info) (assetInfoMap st)
       /\ fuzzyMatch (denom balance) symbol = true
       /\ precedenceExponent info = Some e
       /\ 0 < e
       /\ denomExponentMap (snd (formatBalance st balance))
          = JsMap.set (denomExponentMap st) (denom balance) e.
Proof.
  rewrite formatBalance_expMap. unfold resolveExponent.
  destruct (JsMap.get (denomExponentMap st) (denom balance)); [auto|].
  destruct (fuzzyLoop_map (denom balance) (JsMap.entries (assetInfoMap st)) None
              (denomExponentMap st)) as [H|(s & i & e & H)]; [auto|].
  right. exists s, i, e. unfold JsMap.entries in *. tauto.
Qed.

Lemma formatBalance_get_other st balance k :
  k <> denom balance ->
  JsMap.get (denomExponentMap (snd (formatBalance st balance))) k
  = JsMap.get (denomExponentMap st) k.
Proof.
  intros N. destruct (formatBalance_map st balance) as [->|(s & i & e & H)];
    [reflexivity|].
  destruct H as (_ & _ & _ & _ & ->). apply get_set_other. congruence.
Qed.

Lemma afterBalances_infoMap calls : forall st,
  assetInfoMap (afterBalances st calls) = assetInfoMap st.
Proof.
  induction calls as [|b calls IH]; intros st; simpl; [reflexivity|].
  unfold afterBalances in *. simpl. rewrite IH. apply formatBalance_infoMap.
Qed.

Lemma afterBalances_get_other calls : forall st k,
  ~ In k (map denom calls) ->
  JsMap.get (denomExponentMap (afterBalances st calls)) k
  = JsMap.get (denomExponentMap st) k.
Proof.
  induction calls as [|b calls IH]; intros st k N; simpl; [reflexivity|].
  unfold afterBalances in *. simpl in *. rewrite IH by tauto.
  apply formatBalance_get_other. intros ->. tauto.
Qed.

End Resolver.

Section ResolverClaims.

Lemma find_first {A} (f : A -> bool) (l : list A) (x : A) :
  find f l = Some x ->
  f x = true
  /\ exists pre post,
       l = (pre ++ x :: post)%list /\ forall y, In y pre -> f y = false.
Proof.
  induction l as [|a l IH]; simpl; [discriminate|].
  destruct (f a) eqn:E.
  - intros [= ->]. split; [assumption|].
    exists [], l. split; [reflexivity | intros y []].
  - intros F. destruct (IH F) as (Hx & pre & post & -> & Hpre).
    split; [assumption|].
    exists (a :: pre), post. split; [reflexivity|].
    intros y [<-|Hy]; auto.
Qed.




(** C2, as stated, fails: the first symbol that matches may be passed
    over.  With BTC (atomic resolution -10) inserted before WBTC
    (decimals 8), the denom "wbtc-satoshi" first matches BTC, yet the
    exponent used is 8. *)
Lemma fuzzy_first_match_refuted :
  ~ (forall (st : Precision) (balance : Coin),
       JsMap.get (denomExponentMap st) (denom balance) = None ->
       fb_exponent (fst (formatBalance st balance))
       = firstMatchExponent st (denom balance)).
Proof.
  intros H.
  specialize (H (ingest Sample.assets) Sample.wbtcCoin eq_refl).
  vm_compute in H. discriminate H.
Qed.

(** C2, amended. When the raw denom has no exact entry in the exponent
    map, the loop goes through the symbols in the insertion order of the
    metadata map and accepts the first symbol that matches (after
    lowercasing both, one contains the other) and whose resolved exponent
    is defined and strictly positive: matching symbols before it are
    passed over, its exponent is the one used, and it is cached under the
    denom. *)
Theorem formatBalance_fuzzy_first_positive :
  forall (st : Precision) (balance : Coin) (symbol : string) (info : AssetInfo),
    JsMap.get (denomExponentMap st) (denom balance) = None ->
    firstPositiveMatch st (denom balance) = Some (symbol, info) ->
    (exists pre post e,
        JsMap.entries (assetInfoMap st) = (pre ++ (symbol, info) :: post)%list
        /\ (forall s i, In (s, i) pre -> fuzzyMatch (denom balance) s = true ->
             definedPositive (precedenceExponent i) = false)
        /\ (Occurs (Str.toLowerCase symbol) (Str.toLowerCase (denom balance))
            \/ Occurs (Str.toLowerCase (denom balance)) (Str.toLowerCase symbol))
        /\ precedenceExponent info = Some e /\ 0 < e)
    /\ fb_exponent (fst (formatBalance st balance)) = precedenceExponent info
    /\ JsMap.get (denomExponentMap (snd (formatBalance st balance))) (denom balance)
       = precedenceExponent info.
Proof.
  intros st balance symbol info Hget Hfind.
  unfold firstPositiveMatch in Hfind.
  destruct (find_first _ _ _ Hfind) as (Hx & pre & post & Hsplit & Hpre).
  cbn [fst snd] in Hx. apply andb_true_iff in Hx. destruct Hx as [HM HP].
  assert (HE : exists e, precedenceExponent info = Some e /\ 0 < e).
  { unfold definedPositive in HP. destruct (precedenceExponent info) as [e|];
      [|discriminate]. exists e. split; [reflexivity|]. apply Z.ltb_lt. exact HP. }
  destruct HE as (e & HE & Hpos).
  split.
  - exists pre, post, e. repeat split; try assumption.
    + intros s i Hin Hm. specialize (Hpre (s, i) Hin). cbn [fst snd] in Hpre.
      rewrite Hm in Hpre. exact Hpre.
    + apply fuzzyMatch_spec. exact HM.
  - rewrite formatBalance_exponent, formatBalance_expMap.
    unfold resolveExponent. rewrite Hget.
    rewrite (fuzzyLoop_find _ _ None (denomExponentMap st) _ _ Hfind).
    cbn [fst snd]. split; [reflexivity|].
    rewrite HE. apply get_set_same.
Qed.

Lemma formatBalance_fuzzy_first_positive_witness :
  fb_exponent (fst (formatBalance (ingest Sample.assets) Sample.wbtcCoin)) = Some 8.
Proof.
  exact (proj1 (proj2
    (formatBalance_fuzzy_first_positive (ingest Sample.assets) Sample.wbtcCoin
       "WBTC" Sample.wbtcInfo eq_refl eq_refl))).
Defined.

End ResolverClaims.

Section ExponentMapInvariant.

Variable assetInfo : list (string * AssetInfo).

(** Every entry of the exponent map carries the positive resolved
    exponent of an asset of the response whose symbol matches the key. *)
Let justified (m : JsMap.t Z) : Prop :=
  forall k e, In (k, e) m ->
    exists symbol info,
      In (symbol, info) assetInfo
      /\ precedenceExponent info = Some e
      /\ 0 < e
      /\ fuzzyMatch k symbol = true.

Lemma fuzzyMatch_refl (symbol : string) : fuzzyMatch symbol symbol = true.
Proof. unfold fuzzyMatch. cbv zeta. rewrite String.eqb_refl. reflexivity. Qed.

Lemma justified_ingest entries : forall acc,
  (forall x, In x entries -> In x assetInfo) ->
  justified (denomExponentMap acc) ->
  justified (denomExponentMap (fold_left ingestEntry entries acc)).
Proof.
  induction entries as [|[s i] entries IH]; intros acc Hsub Hacc;
    cbn [fold_left]; [assumption|].
  apply IH; [intros x Hx; apply Hsub; right; assumption|].
  rewrite ingestEntry_expMap.
  destruct (precedenceExponent i) as [e|] eqn:PE; [|assumption].
  destruct (Z.ltb_spec 0 e); [|assumption].
  intros k e' Hin. destruct (set_In _ _ _ _ Hin) as [E|Hin'].
  - inversion E; subst. exists s, i. repeat split; try assumption.
    + apply Hsub. left. reflexivity.
    + apply fuzzyMatch_refl.
  - apply Hacc. assumption.
Qed.

Lemma infoMap_ingest_sub calls kv :
  In kv (assetInfoMap (afterBalances (ingest assetInfo) calls)) -> In kv assetInfo.
Proof.
  rewrite afterBalances_infoMap. unfold ingest. intros H.
  destruct (ingest_fold_entries _ _ _ H) as [H'|[]]. assumption.
Qed.

Lemma justified_afterBalances calls :
  justified (denomExponentMap (afterBalances (ingest assetInfo) calls)).
Proof.
  induction calls as [|b calls IH] using rev_ind.
  - apply justified_ingest; [auto | intros k e []].
  - unfold afterBalances in *. rewrite fold_left_app. cbn [fold_left].
    set (st := fold_left _ calls _) in *.
    destruct (formatBalance_map st b) as [->|(s & i & e & Hin & HM & HP & Hpos & ->)];
      [assumption|].
    intros k e' Hk. destruct (set_In _ _ _ _ Hk) as [E|Hk'].
    + inversion E; subst. exists s, i. repeat split; try assumption.
      apply (infoMap_ingest_sub calls). exact Hin.
    + apply IH. assumption.
Qed.

End ExponentMapInvariant.

Section ExponentMapClaims.

(** C10, as stated, fails in its conclusion: an asset whose resolved
    exponent is zero or negative is not treated as having no exponent.
    USDC resolves to -6 and BTC to -10; neither is in the exponent map,
    yet [formatSubaccountAsset] hands -6 to the conversion, and
    [formatBalance] on the denom "BTC" hands -10 to it and flags the
    balance as converted. *)
Lemma nonpositive_exponent_still_used :
  JsMap.get (denomExponentMap (ingest Sample.assets)) "USDC" = None
  /\ fa_exponent (formatSubaccountAsset (ingest Sample.assets) Sample.usdcPosition)
     = Some (-6)
  /\ JsMap.get (denomExponentMap (ingest Sample.assets)) "BTC" = None
  /\ fb_exponent (fst (formatBalance (ingest [("BTC", Sample.btcInfo)])
                         (mkCoin "25" "BTC")))
     = Some (-10)
  /\ fb_isConverted (fst (formatBalance (ingest [("BTC", Sample.btcInfo)])
                            (mkCoin "25" "BTC")))
     = true.
Proof. vm_compute. repeat split. Qed.

(** C10, amended. The symbol-to-exponent map only ever holds strictly
    positive exponents: after ingestion and any number of [formatBalance]
    calls, every entry is the positive resolved exponent of an asset whose
    symbol matches the key, so an asset whose resolved value is zero or
    negative never contributes an entry, neither at ingestion nor through
    the fuzzy-match cache.  Such an asset is not treated as having no
    exponent: as long as no formatted balance has the asset's symbol
    itself as its denom, the map has no entry under that symbol and
    [formatSubaccountAsset] falls back to the metadata record and
    resolves the non-positive exponent itself. *)
Theorem exponentMap_only_positive :
  forall (assetInfo : list (string * AssetInfo)) (calls : list Coin),
    let st := afterBalances (ingest assetInfo) calls in
    allPositive (denomExponentMap st)
    /\ (forall k e, In (k, e) (denomExponentMap st) ->
          exists symbol info,
            In (symbol, info) assetInfo
            /\ precedenceExponent info = Some e
            /\ 0 < e
            /\ fuzzyMatch k symbol = true)
    /\ (forall symbol info e,
          NoDup (map fst assetInfo) ->
          In (symbol, info) assetInfo ->
          precedenceExponent info = Some e ->
          e <= 0 ->
          ~ In symbol (map denom calls) ->
          JsMap.get (denomExponentMap st) symbol = None
          /\ fa_exponent
               (formatSubaccountAsset st
                  (Indexer.mkAssetPosition symbol Indexer.LONG "0" "0" None))
             = Some e).
Proof.
  intros assetInfo calls st.
  pose proof (justified_afterBalances assetInfo calls) as J. fold st in J.
  split; [|split].
  - unfold allPositive. apply Forall_forall. intros [k e] Hin.
    destruct (J k e Hin) as (s & i & _ & _ & Hpos & _). exact Hpos.
  - exact J.
  - intros symbol info e ND HIn HP Hle Hcalls.
    destruct (ingest_fold_in assetInfo (mkPrecision JsMap.empty JsMap.empty)
                symbol info ND HIn) as [H1 H2].
    fold (ingest assetInfo) in H1, H2.
    assert (G : JsMap.get (denomExponentMap st) symbol = None).
    { subst st. rewrite (afterBalances_get_other calls _ _ Hcalls), H2, HP.
      unfold definedPositive.
      destruct (Z.ltb_spec 0 e); [lia | reflexivity]. }
    split; [exact G|].
    unfold formatSubaccountAsset. cbn [fa_exponent Indexer.symbol].
    rewrite G. subst st. rewrite afterBalances_infoMap, H1. exact HP.
Qed.

Lemma exponentMap_only_positive_witness :
  JsMap.get
    (denomExponentMap (afterBalances (ingest Sample.assets) [Sample.wbtcCoin]))
    "USDC" = None.
Proof.
  refine (proj1 (proj2 (proj2
    (exponentMap_only_positive Sample.assets [Sample.wbtcCoin]))
    "USDC" Sample.usdcInfo (-6) _ _ _ _ _)).
  - repeat constructor; simpl; intuition discriminate.
  - simpl. tauto.
  - reflexivity.
  - lia.
  - simpl. intuition discriminate.
Defined.

End ExponentMapClaims.

(** ** Conversion and totals *)

Section AmountClaims.

(** C6. For the raw amount "1500000" with denom "uusdc", when no
    exponent is resolved from the metadata, [formatBalance] yields a
    converted amount equal to 1.5 and the base denom "usdc" (the prefix
    "u" is stripped), and flags the result as converted.  The conversion
    itself is [getConvertedAmount] as the specification describes it. *)
Theorem formatBalance_uusdc :
  forall st : Precision,
    fst (resolveExponent st "uusdc") = None ->
    let r := fst (formatBalance st Sample.usdcCoin) in
    (exists q, fb_convertedAmount r = Some q /\ (q == 15 # 10)%Q)
    /\ fb_baseDenom r = "usdc"
    /\ fb_isConverted r = true
    /\ fb_exponent r = None.
Proof.
  intros st H r. subst r. unfold formatBalance.
  change (denom Sample.usdcCoin) with "uusdc".
  destruct (resolveExponent st "uusdc") as [exponent expMap].
  cbn [fst] in H. subst exponent.
  cbn [fst fb_convertedAmount fb_baseDenom fb_isConverted fb_exponent].
  repeat split.
  exists (1500000 # 1000000)%Q. split; reflexivity.
Qed.

Lemma formatBalance_uusdc_witness :
  fb_baseDenom (fst (formatBalance (ingest Sample.bitcoinOnly) Sample.usdcCoin))
  = "usdc".
Proof.
  exact (proj1 (proj2
    (formatBalance_uusdc (ingest Sample.bitcoinOnly) eq_refl))).
Defined.

(** C5 fails on the code: the total of a native-token row adds the
    available and the delegated amount as Numbers.  2^53 available plus
    1 delegated gives "9007199254740992" where the exact sum is
    "9007199254740993", and 10^21 plus 1 gives "1e+21". *)
Theorem totalAmount_loses_precision :
  totalAmount (Some Sample.dydxStaked) Sample.dydxCoin = Some "9007199254740992"
  /\ exactTotal (Some Sample.dydxStaked) Sample.dydxCoin = Some "9007199254740993"
  /\ totalAmount (Some Sample.dydxStaked) Sample.dydxLarge = Some "1e+21"
  /\ exactTotal (Some Sample.dydxStaked) Sample.dydxLarge
     = Some "1000000000000000000001".
Proof. vm_compute. repeat split. Qed.

(** Without a delegation in the same denom the amount string is passed on
    untouched. *)
Lemma totalAmount_unstaked (balance : Coin) :
  totalAmount None balance = Some (amount balance).
Proof. reflexivity. Qed.

(** Below 2^53 the Number sum is the exact one. *)
Lemma totalAmount_small :
  totalAmount (Some (mkCoin "2500000" "adydx")) (mkCoin "1500000" "adydx")
  = exactTotal (Some (mkCoin "2500000" "adydx")) (mkCoin "1500000" "adydx").
Proof. vm_compute. reflexivity. Qed.

End AmountClaims.

(** ** Collaborator failures *)

Section CollaboratorClaims.

Import Http.

(** What does degrade: a rejected [fetch] and every response outside
    200-299 give the empty result in all three queries, and so does a 404
    in the two indexer queries. *)
Lemma collaborator_failures_degrade :
  (forall addr n, Indexer.getParentSubaccount addr n Rejected
                  = Resolved (Indexer.emptyParent addr n))
  /\ (forall addr n r, ok r = false ->
        Indexer.getParentSubaccount addr n (Resolved r)
        = Resolved (Indexer.emptyParent addr n))
  /\ Indexer.getSubaccountAssetPositions Rejected
     = Resolved (Indexer.mkAssetPositionsResponse [])
  /\ (forall r, ok r = false ->
        Indexer.getSubaccountAssetPositions (Resolved r)
        = Resolved (Indexer.mkAssetPositionsResponse []))
  /\ getAssetInfo Rejected = Resolved []
  /\ (forall r, ok r = false -> getAssetInfo (Resolved r) = Resolved []).
Proof.
  repeat split; try reflexivity.
  - intros addr n r H. unfold Indexer.getParentSubaccount. simpl. rewrite H. simpl.
    destruct (status r =? 404)%Z; [reflexivity|].
    destruct (text r); reflexivity.
  - intros r H. unfold Indexer.getSubaccountAssetPositions. simpl. rewrite H. simpl.
    destruct (status r =? 404)%Z; reflexivity.
  - intros r H. unfold getAssetInfo. simpl. rewrite H. reflexivity.
Qed.

(** The queries built on [getParentSubaccount] never reject. *)
Lemma getSubaccounts_never_rejects addr fetched :
  exists r, Indexer.getSubaccounts addr fetched = Resolved r.
Proof.
  unfold Indexer.getSubaccounts, Indexer.getParentSubaccount.
  destruct fetched as [r|]; simpl.
  - destruct (ok r); simpl.
    + destruct (json r) as [d|]; simpl; [destruct (Indexer.subaccount d)|]; simpl; eauto.
    + destruct (status r =? 404)%Z; simpl; [eauto|].
      destruct (text r); simpl; eauto.
  - eauto.
Qed.

(** C9 fails on the code: when a 200 response arrives and the connection
    is lost while its body is read, [getAssetInfo] and
    [getSubaccountAssetPositions] return the promise of [response.json()]
    without awaiting it, so its rejection leaves the [try] block and
    reaches the caller; [getParentSubaccount], which awaits the body
    inside the block, degrades to the empty result on the same input. *)
Theorem body_failure_propagates :
  getAssetInfo Sample.brokenBody = Rejected
  /\ Indexer.getSubaccountAssetPositions Sample.brokenBody = Rejected
  /\ (forall addr n,
        Indexer.getParentSubaccount addr n Sample.brokenBody
        = Resolved (Indexer.emptyParent addr n)).
Proof. repeat split. Qed.

End CollaboratorClaims.

(** ** Pagination *)

Section PaginationClaims.

Lemma ceilDiv_bounds (n d : Z) :
  0 < d -> (ceilDiv n d - 1) * d < n <= ceilDiv n d * d.
Proof.
  intros Hd. unfold ceilDiv.
  pose proof (Z.mul_div_le (- n) d Hd).
  pose proof (Z.mul_succ_div_gt (- n) d Hd).
  nia.
Qed.

Lemma ceilDiv_nonneg (n d : Z) : 0 < d -> 0 <= n -> 0 <= ceilDiv n d.
Proof. intros Hd Hn. pose proof (ceilDiv_bounds n d Hd). nia. Qed.

Lemma ceilDiv_pos (n d : Z) : 0 < d -> 0 < n -> 0 < ceilDiv n d.
Proof. intros Hd Hn. pose proof (ceilDiv_bounds n d Hd). nia. Qed.

Lemma ceilDiv_zero (d : Z) : 0 < d -> ceilDiv 0 d = 0.
Proof. intros Hd. pose proof (ceilDiv_bounds 0 d Hd). nia. Qed.

Lemma ibcCount_nonneg (pg : Paging) : 0 <= ibcCount pg.
Proof. unfold ibcCount. lia. Qed.

(** A window that starts inside the list. *)
Lemma slice_window {A} (l : list A) (start stop : Z) :
  0 <= start <= stop ->
  slice l start stop
  = firstn (Z.to_nat (stop - start)) (skipn (Z.to_nat start) l).
Proof.
  intros H. unfold slice.
  destruct (Z.ltb_spec start 0); [lia|].
  destruct (Z.ltb_spec stop 0); [lia|].
  set (len := Z.of_nat (List.length l)).
  destruct (Z.le_gt_cases start len) as [Hs|Hs].
  - rewrite (Z.min_l start len) by lia.
    destruct (Z.le_gt_cases stop len) as [He|He].
    + rewrite (Z.min_l stop len) by lia. reflexivity.
    + rewrite (Z.min_r stop len) by lia.
      rewrite !firstn_all2; [reflexivity | |];
        rewrite length_skipn; subst len; lia.
  - rewrite (Z.min_r start len) by lia. rewrite (Z.min_r stop len) by lia.
    rewrite Z.sub_diag. simpl.
    rewrite skipn_all2 by (subst len; lia).
    rewrite firstn_nil. reflexivity.
Qed.

(** C7, as stated, fails when there is no IBC token: [totalPages] is 0,
    the interval [1, totalPages] is empty, [handlePageChange] still
    answers 1, and the token effect leaves a current page of 3 where it
    is although it exceeds [totalPages]. *)
Lemma page_not_reset_without_tokens :
  let pg := mkPaging [Sample.dydxCoin] 3 10 in
  totalPages pg = 0
  /\ totalPages pg < currentPage pg
  /\ currentPage (tokensEffect pg) = 3
  /\ currentPage (setBalances (mkPaging Sample.ibc23 3 10) [Sample.dydxCoin]) = 3
  /\ ~ (1 <= currentPage (handlePageChange pg 0) <= totalPages pg).
Proof. vm_compute. repeat split; try discriminate. intros [_ H]. apply H. reflexivity. Qed.

(** C7, amended. With a positive page size and at least one IBC token,
    the page window is clamped into [1, totalPages]: [handlePageChange]
    answers a page in that interval, and the page of a window in that
    interval shows between one and [itemsPerPage] items, from index
    [(currentPage - 1) * itemsPerPage] on.  With 23 IBC tokens and page
    size 10 there are 3 pages, page 3 shows exactly the 3 items at
    indices 20-22, a request for page 0 gives page 1 and a request for
    page 4 gives page 3.  Whenever the token set changes so that the
    current page exceeds a [totalPages] that is not zero, and whenever
    the page size changes, the current page is reset to 1; with no IBC
    token left [totalPages] is 0, the current page is left as it is and
    [handlePageChange] answers 1. *)
Theorem pagination_clamped :
  forall pg : Paging,
    0 < itemsPerPage pg ->
    (0 < ibcCount pg ->
       forall page,
         1 <= currentPage (handlePageChange pg page) <= totalPages pg
         /\ (page < 1 -> currentPage (handlePageChange pg page) = 1)
         /\ (totalPages pg < page ->
             currentPage (handlePageChange pg page) = totalPages pg)
         /\ (1 <= page <= totalPages pg ->
             currentPage (handlePageChange pg page) = page))
    /\ (1 <= currentPage pg <= totalPages pg ->
        paginatedIbcTokens pg
        = firstn (Z.to_nat (itemsPerPage pg))
            (skipn (Z.to_nat (startIndex pg)) (ibcTokens (balances pg)))
        /\ (1 <= List.length (paginatedIbcTokens pg) <= Z.to_nat (itemsPerPage pg))%nat)
    /\ (ibcCount pg = 23 -> itemsPerPage pg = 10 ->
        totalPages pg = 3
        /\ currentPage (handlePageChange pg 0) = 1
        /\ currentPage (handlePageChange pg 4) = 3
        /\ (currentPage pg = 3 ->
            paginatedIbcTokens pg = skipn 20 (ibcTokens (balances pg))
            /\ List.length (paginatedIbcTokens pg) = 3%nat))
    /\ (forall newBalances,
          let pg' := setBalances pg newBalances in
          (0 < totalPages pg' < currentPage pg -> currentPage pg' = 1)
          /\ (totalPages pg' = 0 -> currentPage pg' = currentPage pg)
          /\ (currentPage pg <= totalPages pg' -> currentPage pg' = currentPage pg))
    /\ (forall newItemsPerPage,
          newItemsPerPage <> itemsPerPage pg ->
          currentPage (handleItemsPerPageChange pg newItemsPerPage) = 1)
    /\ (ibcCount pg = 0 ->
        totalPages pg = 0
        /\ forall page, currentPage (handlePageChange pg page) = 1).
Proof.
  intros pg Hd.
  pose proof (ibcCount_nonneg pg) as Hn.
  pose proof (ceilDiv_bounds (ibcCount pg) (itemsPerPage pg) Hd) as Hb.
  fold (totalPages pg) in Hb.
  split; [|split; [|split; [|split; [|split]]]].
  - intros Hpos page.
    assert (0 < totalPages pg) by (apply ceilDiv_pos; assumption).
    unfold handlePageChange, setCurrentPage. cbn [currentPage].
    repeat split; intros; lia.
  - intros Hpage.
    assert (Hs : 0 <= startIndex pg) by (unfold startIndex; nia).
    assert (Hlt : startIndex pg < ibcCount pg) by (unfold startIndex; nia).
    unfold paginatedIbcTokens, endIndex.
    rewrite slice_window by lia.
    replace (startIndex pg + itemsPerPage pg - startIndex pg) with (itemsPerPage pg)
      by lia.
    split; [reflexivity|].
    rewrite length_firstn, length_skipn. unfold ibcCount in Hlt. lia.
  - intros H23 H10. rewrite H23, H10 in Hb.
    assert (T : totalPages pg = 3) by lia.
    unfold handlePageChange, setCurrentPage. cbn [currentPage]. rewrite T.
    split; [reflexivity|]. split; [reflexivity|]. split; [reflexivity|].
    intros H3. split.
    + unfold paginatedIbcTokens, endIndex, startIndex.
      rewrite H3, H10. rewrite slice_window by lia.
      change (Z.to_nat ((3 - 1) * 10 + 10 - (3 - 1) * 10)) with 10%nat.
      change (Z.to_nat ((3 - 1) * 10)) with 20%nat.
      apply firstn_all2. rewrite length_skipn. unfold ibcCount in H23. lia.
    + unfold paginatedIbcTokens, endIndex, startIndex.
      rewrite H3, H10. rewrite slice_window by lia.
      change (Z.to_nat ((3 - 1) * 10 + 10 - (3 - 1) * 10)) with 10%nat.
      change (Z.to_nat ((3 - 1) * 10)) with 20%nat.
      rewrite length_firstn, length_skipn. unfold ibcCount in H23. lia.
  - intros newBalances pg'. subst pg'. unfold setBalances, tokensEffect.
    set (q := mkPaging newBalances (currentPage pg) (itemsPerPage pg)).
    change (currentPage pg) with (currentPage q).
    destruct (Z.gtb_spec (currentPage q) (totalPages q));
      destruct (Z.gtb_spec (totalPages q) 0); cbn [andb];
      change (totalPages (setCurrentPage q 1)) with (totalPages q);
      cbn [setCurrentPage currentPage]; repeat split; intros; lia.
  - intros newItemsPerPage Hne. unfold handleItemsPerPageChange.
    destruct (Z.eqb_spec newItemsPerPage (itemsPerPage pg)); [contradiction|].
    unfold tokensEffect, itemsPerPageEffect.
    match goal with |- currentPage (if ?b then _ else _) = _ => destruct b end;
      reflexivity.
  - intros H0. rewrite H0 in Hb.
    assert (T : totalPages pg = 0) by nia.
    split; [exact T|]. intros page.
    unfold handlePageChange, setCurrentPage. cbn [currentPage]. rewrite T. lia.
Qed.

Lemma pagination_clamped_witness :
  currentPage (handlePageChange (mkPaging Sample.ibc23 1 10) 4) = 3.
Proof.
  refine (proj1 (proj2 (proj2 (proj1 (proj2 (proj2
    (pagination_clamped (mkPaging Sample.ibc23 1 10) _))) _ _)))).
  - reflexivity.
  - reflexivity.
  - reflexivity.
Defined.

End PaginationClaims.

(** ** Transaction decoding *)

Section DecodingClaims.

Variable DecodeMsg : Type.
Variable Tx_decode : string -> option TxData.
Variable decodeMsg : string -> string -> option DecodeMsg.

Lemma decodeMessages_app (msgList : list AnyMsg) : forall msgs,
  decodeMessages DecodeMsg decodeMsg msgList msgs
  = (msgs ++ decodable DecodeMsg decodeMsg msgList)%list.
Proof.
  induction msgList as [|m msgList IH]; intros msgs; simpl.
  - rewrite app_nil_r. reflexivity.
  - destruct (decodeMsg (typeUrl m) (value m)); rewrite IH.
    + rewrite <- app_assoc. reflexivity.
    + reflexivity.
Qed.

Lemma decodeLoop_app (txs : list TxResponse) : forall decoded,
  decodeLoop DecodeMsg Tx_decode decodeMsg txs decoded
  = (decoded ++ decodedSet DecodeMsg Tx_decode decodeMsg txs)%list.
Proof.
  induction txs as [|t txs IH]; intros decoded; simpl.
  - rewrite app_nil_r. reflexivity.
  - destruct (Tx_decode (tx t)) as [d|]; rewrite IH.
    + rewrite <- app_assoc. rewrite decodeMessages_app. reflexivity.
    + reflexivity.
Qed.

Lemma decodedSet_fst (txs : list TxResponse) (t : TxResponse) :
  In t (map fst (decodedSet DecodeMsg Tx_decode decodeMsg txs)) ->
  Tx_decode (tx t) <> None.
Proof.
  induction txs as [|a txs IH]; simpl; [tauto|].
  destruct (Tx_decode (tx a)) as [d|] eqn:E; simpl.
  - intros [<-|H]; [congruence | auto].
  - auto.
Qed.

(** C8. Decoding tolerates partial results.  For every fetched
    transaction: if its envelope decodes, the decoded set holds it with
    exactly the messages that decode, in order, a message that fails to
    decode being left out while the others are kept (one undecodable
    message among two gives a list of length 1); if its envelope does not
    decode, it is absent from the decoded set and still in the raw
    transaction list, which decoding leaves as it is. *)
Theorem decoding_partial_results :
  forall (st : TxState DecodeMsg) (t : TxResponse),
    In t (transactions DecodeMsg st) ->
    let st' := decodeEffect DecodeMsg Tx_decode decodeMsg st in
    transactions DecodeMsg st' = transactions DecodeMsg st
    /\ decodedTxs DecodeMsg st'
       = decodedSet DecodeMsg Tx_decode decodeMsg (transactions DecodeMsg st)
    /\ (forall txData,
          Tx_decode (tx t) = Some txData ->
          In (t, decodable DecodeMsg decodeMsg (messagesOf txData))
             (decodedTxs DecodeMsg st')
          /\ (forall msg,
                In msg (decodable DecodeMsg decodeMsg (messagesOf txData)) <->
                exists message,
                  In message (messagesOf txData)
                  /\ decodeMsg (typeUrl message) (value message) = Some msg)
          /\ (forall m1 m2,
                messagesOf txData = [m1; m2] ->
                (decodeMsg (typeUrl m1) (value m1) = None
                 /\ decodeMsg (typeUrl m2) (value m2) <> None)
                \/ (decodeMsg (typeUrl m1) (value m1) <> None
                    /\ decodeMsg (typeUrl m2) (value m2) = None) ->
                List.length (decodable DecodeMsg decodeMsg (messagesOf txData))
                = 1%nat))
    /\ (Tx_decode (tx t) = None ->
        ~ In t (map fst (decodedTxs DecodeMsg st'))
        /\ In t (transactions DecodeMsg st')).
Proof.
  intros st t HIn st'.
  assert (E : st' = mkTxState DecodeMsg (transactions DecodeMsg st)
                      (decodedSet DecodeMsg Tx_decode decodeMsg
                         (transactions DecodeMsg st))).
  { subst st'. unfold decodeEffect.
    destruct (transactions DecodeMsg st) as [|a l] eqn:T; [destruct HIn|].
    cbn [List.length Nat.ltb Nat.leb]. rewrite decodeLoop_app. reflexivity. }
  rewrite E. cbn [transactions decodedTxs].
  split; [reflexivity|]. split; [reflexivity|]. split.
  - intros txData Hd. split; [|split].
    + unfold decodedSet at 1. apply in_flat_map. exists t.
      split; [assumption|]. rewrite Hd. left. reflexivity.
    + intros msg. unfold decodable. rewrite in_flat_map.
      split; intros (m & Hm & Hx); exists m; (split; [assumption|]).
      * destruct (decodeMsg (typeUrl m) (value m)) as [x|]; [|destruct Hx].
        destruct Hx as [->|[]]. reflexivity.
      * rewrite Hx. left. reflexivity.
    + intros m1 m2 -> H. unfold decodable. simpl.
      destruct (decodeMsg (typeUrl m1) (value m1)),
               (decodeMsg (typeUrl m2) (value m2));
        simpl; try reflexivity; destruct H as [[? ?]|[? ?]]; congruence.
  - intros Hnone. split; [|assumption].
    intros H. apply decodedSet_fst in H. contradiction.
Qed.

End DecodingClaims.

Lemma decoding_partial_results_witness :
  decodedTxs string
    (decodeEffect string Sample.sampleTxDecode Sample.sampleDecodeMsg
       (mkTxState string [Sample.goodTx; Sample.badTx] []))
  = [(Sample.goodTx, ["0a2d"])].
Proof.
  exact (proj1 (proj2
    (decoding_partial_results string Sample.sampleTxDecode Sample.sampleDecodeMsg
       (mkTxState string [Sample.goodTx; Sample.badTx] []) Sample.badTx
       (or_intror (or_introl eq_refl))))).
Defined.

(** ** Connection lifecycle *)

Section ConnectClaims.

Import Connect.

(** Reduction of the monadic code: the operations of the monad, the
    actions and the projections are unfolded, the properties of logs are
    not. *)
Ltac red_connect :=
  lazy beta iota zeta delta
    [connectClient tryCatch bind doUnsubscribe doDisconnect doConnect doSubscribe
     call emit fresh dispatch setError setState ret capture teardown
     currentSubsNewBlock currentSubsTxEvent currentTmClient
     store status error log nextId fst snd negb
     connect stream params
     connectState tmClient rpcAddress newBlock txEvent subsNewBlock subsTxEvent
     stakingParams mintParams distributionParams slashingParams govVotingParams
     govDepositParams govTallyParams
     setConnectState setTmClient setRPCAddress setNewBlock setTxEvent
     setSubsNewBlock setSubsTxEvent setStakingParams setMintParams
     setDistributionParams setSlashingParams setGovVotingParams
     setGovDepositParams setGovTallyParams].

Ltac case_connect :=
  match goal with
  | |- context [match ?o with Returns _ => _ | Throws => _ end] =>
      let E := fresh "E" in destruct o as [[]|] eqn:E
  | |- context [match ?o with Returns _ => _ | Throws => _ end] =>
      let E := fresh "E" in destruct o as [[|]|] eqn:E
  | |- context [match ?o with Some _ => _ | None => _ end] =>
      is_var o; destruct o
  | |- context [if Str.truthy ?a then _ else _] =>
      let E := fresh "E" in destruct (Str.truthy a) eqn:E
  end.

Ltac cases_connect := red_connect; repeat (case_connect; red_connect).

(** The effects and the store of a successful run. *)
Lemma connect_success_trace : forall env addr w,
    let r := connectClient env (capture (store w)) addr w in
    status (snd r) = success ->
    let n := nextId w in
    log (snd r)
    = (log w ++ teardown env (store w)
       ++ [Connected n; Subscribed NewBlock (S n) n; Subscribed TxEvent (S (S n)) n])%list
    /\ store (snd r)
       = mkStore (mkConnectSlice true (Some n) (Some addr))
           (mkStreamSlice None None (Some (S n)) (Some (S (S n))))
           (mkParamsSlice None None None None None None None)
    /\ nextId (snd r) = S (S (S n)) /\ error (snd r) = false.
Proof.
  intros env addr [[[cs tc ra] [nb te sn st] pr] s e l n] r. subst r.
  cases_connect.
  all: try (intros; discriminate).
  all: intros _; repeat rewrite <- app_assoc; cbn [app]; auto.
Qed.

Lemma activeOn_app s l p :
  activeOn s (l ++ p) = fold_left (step s) p (activeOn s l).
Proof. unfold activeOn. apply fold_left_app. Qed.

Lemma app_prefix_split {A} (l ev l1 l2 : list A) :
  (l ++ ev = l1 ++ l2)%list -> (List.length l <= List.length l1)%nat ->
  exists p, l1 = (l ++ p)%list /\ ev = (p ++ l2)%list.
Proof.
  revert l1. induction l as [|a l IH]; intros l1 H Hlen; simpl in *.
  - exists l1. auto.
  - destruct l1 as [|b l1]; simpl in *; [lia|].
    injection H as <- H. destruct (IH l1 H) as (p & -> & ->); [lia|].
    exists p. auto.
Qed.

Ltac solve_active :=
  repeat (cbn [fold_left step Stream_eqb app filter negb List.length In fst snd];
          try rewrite Nat.eqb_refl;
          try match goal with
              | |- context [Nat.eqb ?a ?b] => destruct (Nat.eqb_spec a b)
              end);
  try lia; try reflexivity; try tauto.

Ltac prefixes H p tac :=
  destruct p as [|? p];
  [ tac
  | cbn [app] in H;
    first [ discriminate H
          | injection H as ? H; subst; prefixes H p tac ] ].

(** C4, as stated, fails: not every successful reconnect leaves one
    active subscription per stream.  A first attempt in which the
    transaction subscription cannot be set up leaves a new-block
    subscription that the store does not hold; when the retry succeeds
    while [disconnect] of the previous client throws (the exception is
    caught and ignored), that subscription is never torn down and two
    new-block subscriptions are active. *)
Lemma reconnect_after_leak_two_subscriptions :
  let w' := snd (connectClient Sample.disconnectThrows
                   (capture (store Sample.halfConnectedWorld)) Sample.rpc
                   Sample.halfConnectedWorld) in
  status w' = success
  /\ error w' = false
  /\ activeOn NewBlock (log w') = [(1, 0); (3, 2)]%nat
  /\ activeOn TxEvent (log w') = [(4, 2)]%nat
  /\ ~ (List.length (activeOn NewBlock (log w')) <= 1)%nat.
Proof.
  vm_compute. repeat split. intros H.
  apply (proj1 (Nat.le_ngt 2 1) H). repeat constructor.
Qed.

(** C4, amended. A successful reconnect leaves exactly one active
    new-block subscription and exactly one active transaction
    subscription, the ones whose handles the store holds, when it starts
    from a state that satisfies the connection invariant (per stream at
    most one subscription is active, and it is held by the store or was
    made on the store's client) and every active subscription that the
    store does not hold is on a client whose [disconnect] returns.  The
    handles held before are unsubscribed and the previous client is
    disconnected (its [disconnect] is called, an exception being ignored)
    before the new client is connected and the new subscriptions are
    created; the previous handles are no longer active; at every moment
    of the reconnect at most one subscription per stream is active; and
    the invariant holds again afterwards, with no subscription that the
    store does not hold. *)
Theorem reconnect_single_subscription :
  forall (env : Env) (addr : string) (w : World),
    consistent w ->
    (forall s h c, In (h, c) (activeOn s (log w)) ->
       held (store w) s = Some h \/ disconnect env c = Returns tt) ->
    let w' := snd (connectClient env (capture (store w)) addr w) in
    status w' = success ->
    exists c h1 h2,
      log w' = (log w ++ teardown env (store w)
                ++ [Connected c; Subscribed NewBlock h1 c; Subscribed TxEvent h2 c])%list
      /\ connectState (connect (store w')) = true
      /\ tmClient (connect (store w')) = Some c
      /\ held (store w') NewBlock = Some h1
      /\ held (store w') TxEvent = Some h2
      /\ activeOn NewBlock (log w') = [(h1, c)]
      /\ activeOn TxEvent (log w') = [(h2, c)]
      /\ (forall s h, held (store w) s = Some h ->
            forall s' c', ~ In (h, c') (activeOn s' (log w')))
      /\ (forall s l1 l2,
            log w' = (l1 ++ l2)%list ->
            (List.length (log w) <= List.length l1)%nat ->
            (List.length (activeOn s l1) <= 1)%nat)
      /\ consistent w'
      /\ leakFree w'.
Proof.
  intros env addr w Hc Hd w' Hs.
  destruct (connect_success_trace env addr w Hs) as (Hlog & Hstore & Hnext & _).
  fold w' in Hlog, Hstore, Hnext.
  exists (nextId w), (S (nextId w)), (S (S (nextId w))).
  unfold consistent, leakFree. rewrite Hlog, Hstore, Hnext.
  clearbody w'. clear Hs Hlog Hstore Hnext w'.
  destruct w as [[[cs tc ra] [nb te sn st] pr] s e l n].
  destruct Hc as (C1 & C2 & C3 & C4).
  pose proof (C1 NewBlock) as LB. pose proof (C1 TxEvent) as LT.
  pose proof (C2 NewBlock) as OB. pose proof (C2 TxEvent) as OT.
  pose proof (Hd NewBlock) as DB. pose proof (Hd TxEvent) as DT.
  pose proof (C3 NewBlock) as NB. pose proof (C3 TxEvent) as NT.
  pose proof (C4 NewBlock) as SB. pose proof (C4 TxEvent) as ST.
  clear C1 C2 C3 C4 Hd.
  unfold teardown, held in *.
  cbn [store log nextId connect stream subsNewBlock subsTxEvent tmClient
       connectState] in *.
  destruct (activeOn NewBlock l) as [|[hb cb] [|? ?]] eqn:EB;
    [ clear OB DB NB
    | specialize (OB hb cb (or_introl eq_refl));
      specialize (DB hb cb (or_introl eq_refl));
      specialize (NB hb cb (or_introl eq_refl))
    | cbn in LB; lia ];
  (destruct (activeOn TxEvent l) as [|[ht ct] [|? ?]] eqn:ET;
    [ clear OT DT NT
    | specialize (OT ht ct (or_introl eq_refl));
      specialize (DT ht ct (or_introl eq_refl));
      specialize (NT ht ct (or_introl eq_refl))
    | cbn in LT; lia ]);
  destruct sn as [x|], st as [y|], tc as [c0|];
  try (destruct (disconnect env c0) as [[]|] eqn:ED);
  repeat match goal with
         | H : _ \/ _ |- _ => destruct H
         | H : Some _ = Some _ |- _ => injection H as H; subst
         | H : None = Some _ |- _ => discriminate H
         | H : Throws = Returns _ |- _ => discriminate H
         | H : ?a = Returns tt, H' : ?a = Throws |- _ => rewrite H in H'; discriminate H'
         | H : forall h, Some _ = Some h -> _ |- _ => specialize (H _ eq_refl)
         | H : forall h, None = Some h -> _ |- _ => clear H
         end;
  (repeat match goal with |- _ /\ _ => split end);
  try reflexivity;
  try (rewrite activeOn_app; rewrite ?EB, ?ET; solve_active; fail);
  try (intros [|] h Hh [|] c'; try discriminate Hh; injection Hh as <-;
       rewrite activeOn_app; rewrite ?EB, ?ET; solve_active;
       intros [[= ? ?]|[]]; lia);
  try (intros [|] l1 l2 Hsplit Hlen;
       destruct (app_prefix_split _ _ _ _ Hsplit Hlen) as (p & -> & Hp);
       rewrite activeOn_app; rewrite ?EB, ?ET;
       cbn [app] in Hp; prefixes Hp p solve_active; fail);
  try (intros [|]; rewrite activeOn_app; rewrite ?EB, ?ET; solve_active; fail);
  try (intros [|] h c; rewrite activeOn_app; rewrite ?EB, ?ET; solve_active;
       intros [[= <- <-]|[]]; auto; lia).
  all: try (intros [|] h [= <-]; lia).
Qed.

Lemma halfConnectedWorld_consistent : consistent Sample.halfConnectedWorld.
Proof.
  unfold consistent. vm_compute.
  repeat split; intros [|]; intros; cbn in *;
    repeat match goal with
           | H : _ \/ _ |- _ => destruct H
           | H : False |- _ => destruct H
           | H : (_, _) = (_, _) |- _ => injection H as <- <-
           | H : None = Some _ |- _ => discriminate H
           end; auto; repeat constructor.
Qed.

Lemma reconnect_single_subscription_witness :
  exists c h1 h2,
    activeOn NewBlock
      (log (snd (connectClient Sample.healthy
                   (capture (store Sample.halfConnectedWorld)) Sample.rpc
                   Sample.halfConnectedWorld))) = [(h1, c)]
    /\ activeOn TxEvent
      (log (snd (connectClient Sample.healthy
                   (capture (store Sample.halfConnectedWorld)) Sample.rpc
                   Sample.halfConnectedWorld))) = [(h2, c)].
Proof.
  destruct (reconnect_single_subscription Sample.healthy Sample.rpc
              Sample.halfConnectedWorld halfConnectedWorld_consistent
              (fun _ _ _ _ => or_intror eq_refl) eq_refl)
    as (c & h1 & h2 & _ & _ & _ & _ & _ & H1 & H2 & _).
  exists c, h1, h2. split; [exact H1 | exact H2].
Defined.

(** C3, as stated, fails: when the transaction subscription cannot be set
    up on a fresh page, the run ends with the error flag set while the
    store says connected, holds the new client and no subscription handle,
    and the new-block subscription that was created stays active. *)
Lemma subscription_failure_half_connected :
  let w' := snd (connectClient Sample.txSubscriptionFails
                   (capture disconnectedStore) Sample.rpc initialWorld) in
  error w' = true
  /\ status w' = initial
  /\ connectState (connect (store w')) = true
  /\ tmClient (connect (store w')) = Some 0%nat
  /\ subsNewBlock (stream (store w')) = None
  /\ subsTxEvent (stream (store w')) = None
  /\ activeOn NewBlock (log w') = [(1%nat, 0%nat)]
  /\ halfConnected (store w')
  /\ ~ fullyDisconnected (store w').
Proof.
  vm_compute. repeat split; auto.
  intros (H & _). discriminate H.
Qed.

(** C3, amended. [connectClient] never throws, and every failure path
    (empty address, failed validation, failed client creation, any
    exception) ends with the status back at its initial value and the
    single boolean error flag set, a success with the flag cleared.  When
    the store is disconnected at the start, the failures up to and
    including the creation of the client (empty address, validation that
    fails or throws, client creation that fails or throws) leave it fully
    disconnected. *)
Theorem connect_fails_closed :
  forall (env : Env) (cur : Captured) (addr : string) (w : World),
    let r := connectClient env cur addr w in
    fst r = Ok tt
    /\ ((status (snd r) = success /\ error (snd r) = false)
        \/ (status (snd r) = initial /\ error (snd r) = true))
    /\ (fullyDisconnected (store w) ->
        Str.truthy addr = false
        \/ validateConnection env addr <> Returns true
        \/ connectWebsocketClient env addr <> Returns true ->
        status (snd r) = initial
        /\ error (snd r) = true
        /\ fullyDisconnected (store (snd r))).
Proof.
  intros env [cnb ctx ccl] addr [[[cs tc ra] [nb te sn st] pr] s e l n] r.
  subst r. unfold fullyDisconnected.
  cases_connect.
  all: split; [reflexivity|]; split; [auto|].
  all: intros (-> & -> & -> & ->) H; repeat split.
  all: destruct H as [H|[H|H]]; congruence.
Qed.

Lemma connect_fails_closed_witness :
  fullyDisconnected
    (store (snd (connectClient Sample.unreachable (capture disconnectedStore) ""
                   initialWorld))).
Proof.
  refine (proj2 (proj2 (proj2 (proj2
    (connect_fails_closed Sample.unreachable (capture disconnectedStore) ""
       initialWorld)) _ _))).
  - repeat split.
  - left. reflexivity.
Defined.

(** X21. [connectClient] validates before it touches anything: with an
    empty address, or a validation that fails or throws, the store, the
    effect log and the object identities are as before (an existing
    connection and its subscriptions are untouched), the status is back at
    its initial value and the error flag is set. *)
Theorem validation_gate :
  forall (env : Env) (cur : Captured) (addr : string) (w : World),
    Str.truthy addr = false \/ validateConnection env addr <> Returns true ->
    let w' := snd (connectClient env cur addr w) in
    store w' = store w
    /\ log w' = log w
    /\ nextId w' = nextId w
    /\ status w' = initial
    /\ error w' = true.
Proof.
  intros env [cnb ctx ccl] addr [[[cs tc ra] [nb te sn st] pr] s e l n] H w'.
  subst w'. cases_connect.
  all: try (repeat split; reflexivity).
  all: destruct H as [H|H]; congruence.
Qed.

Lemma validation_gate_witness :
  store (snd (connectClient Sample.unreachable
                (capture (store Sample.connectedWorld)) Sample.rpc
                Sample.connectedWorld))
  = store Sample.connectedWorld.
Proof.
  refine (proj1 (validation_gate Sample.unreachable
                   (capture (store Sample.connectedWorld)) Sample.rpc
                   Sample.connectedWorld _)).
  right. discriminate.
Defined.

(** X22. A run of [connectClient] ends in success exactly when the
    address is non-empty, the validation returns true, unsubscribing the
    captured handles returns, the client is created and both
    subscriptions on the new client are set up; whether [disconnect] of
    the previous client throws plays no part. *)
Theorem connect_success_iff :
  forall (env : Env) (cur : Captured) (addr : string) (w : World),
    status (snd (connectClient env cur addr w)) = success
    <->
    Str.truthy addr = true
    /\ validateConnection env addr = Returns true
    /\ (forall h, currentSubsNewBlock cur = Some h -> unsubscribe env h = Returns tt)
    /\ (forall h, currentSubsTxEvent cur = Some h -> unsubscribe env h = Returns tt)
    /\ connectWebsocketClient env addr = Returns true
    /\ subscribeNewBlock env (nextId w) = Returns tt
    /\ subscribeTx env (nextId w) = Returns tt.
Proof.
  intros env [cnb ctx ccl] addr [[[cs tc ra] [nb te sn st] pr] s e l n].
  cbn [currentSubsNewBlock currentSubsTxEvent nextId].
  cases_connect.
  all: split;
    [ intros H; try discriminate H;
      repeat split; try assumption; intros ? [= <-]; assumption
    | intros (H1 & H2 & H3 & H4 & H5 & H6 & H7);
      try reflexivity;
      try pose proof (H3 _ eq_refl); try pose proof (H4 _ eq_refl);
      congruence ].
Qed.

(** X23. Every attempt that gets past validation and the unsubscribing
    of the captured handles clears the cached chain parameters and the
    latest block and transaction events, whether or not the connection
    then succeeds. *)
Theorem attempt_clears_cached_state :
  forall (env : Env) (cur : Captured) (addr : string) (w : World),
    Str.truthy addr = true ->
    validateConnection env addr = Returns true ->
    (forall h, currentSubsNewBlock cur = Some h -> unsubscribe env h = Returns tt) ->
    (forall h, currentSubsTxEvent cur = Some h -> unsubscribe env h = Returns tt) ->
    let st' := store (snd (connectClient env cur addr w)) in
    params st' = mkParamsSlice None None None None None None None
    /\ newBlock (stream st') = None
    /\ txEvent (stream st') = None.
Proof.
  intros env [cnb ctx ccl] addr [[[cs tc ra] [nb te sn st] pr] s e l n]
    Ht Hv Hb Hx st'.
  subst st'. cbn [currentSubsNewBlock currentSubsTxEvent] in Hb, Hx.
  cases_connect.
  all: try (repeat split; reflexivity).
  all: try congruence.
  all: try (pose proof (Hb _ eq_refl); congruence).
  all: try (pose proof (Hx _ eq_refl); congruence).
Qed.

Lemma attempt_clears_cached_state_witness :
  params (store (snd (connectClient Sample.txSubscriptionFails
                        (capture (store Sample.connectedWorld)) Sample.rpc
                        Sample.connectedWorld)))
  = mkParamsSlice None None None None None None None.
Proof.
  refine (proj1 (attempt_clears_cached_state Sample.txSubscriptionFails
                   (capture (store Sample.connectedWorld)) Sample.rpc
                   Sample.connectedWorld _ _ _ _)).
  - reflexivity.
  - reflexivity.
  - intros h _. reflexivity.
  - intros h _. reflexivity.
Defined.

(** X24. When a reconnect passes validation but no client is created
    (it returns null or throws), the connect slice of the store is left
    as it was, so a store that said connected still says so and still
    holds the previous client, while both subscription handles are gone
    and the teardown effects have happened; the run ends with the error
    flag set. *)
Theorem failed_reconnect_keeps_flag :
  forall (env : Env) (addr : string) (w : World),
    Str.truthy addr = true ->
    validateConnection env addr = Returns true ->
    (forall s h, held (store w) s = Some h -> unsubscribe env h = Returns tt) ->
    connectWebsocketClient env addr <> Returns true ->
    let w' := snd (connectClient env (capture (store w)) addr w) in
    connect (store w') = connect (store w)
    /\ held (store w') NewBlock = None
    /\ held (store w') TxEvent = None
    /\ log w' = (log w ++ teardown env (store w))%list
    /\ status w' = initial
    /\ error w' = true
    /\ (connectState (connect (store w)) = true -> halfConnected (store w')).
Proof.
  intros env addr [[[cs tc ra] [nb te sn st] pr] s e l n] Ht Hv Hu Hc w'.
  subst w'.
  pose proof (Hu NewBlock) as Hb. pose proof (Hu TxEvent) as Hx.
  unfold held, halfConnected in *.
  cbn [store stream subsNewBlock subsTxEvent] in Hb, Hx.
  cases_connect.
  all: try congruence.
  all: try (pose proof (Hb _ eq_refl); congruence).
  all: try (pose proof (Hx _ eq_refl); congruence).
  all: repeat rewrite <- app_assoc; cbn [app]; rewrite ?app_nil_r;
    repeat split; auto.
Qed.

Lemma failed_reconnect_keeps_flag_witness :
  halfConnected
    (store (snd (connectClient
                   (mkEnv (fun _ => Returns true) (fun _ => Returns false)
                      (fun _ => Returns tt) (fun _ => Returns tt)
                      (fun _ => Returns tt) (fun _ => Returns tt))
                   (capture (store Sample.connectedWorld)) Sample.rpc
                   Sample.connectedWorld))).
Proof.
  refine (proj2 (proj2 (proj2 (proj2 (proj2 (proj2
    (failed_reconnect_keeps_flag
       (mkEnv (fun _ => Returns true) (fun _ => Returns false)
          (fun _ => Returns tt) (fun _ => Returns tt)
          (fun _ => Returns tt) (fun _ => Returns tt))
       Sample.rpc Sample.connectedWorld _ _ _ _)))))) _).
  - reflexivity.
  - reflexivity.
  - intros s h _. reflexivity.
  - discriminate.
  - reflexivity.
Defined.

End ConnectClaims.

(** ** Further properties of the modelled code *)

Section ClientFacts.

Import Http.

(** X1. [getParentSubaccount] never rejects: it resolves to the parsed
    body when the response is in 200-299 and its body can be read, and to
    the record with no child subaccounts in every other case (rejected
    [fetch], 404, any other status whether or not the error text can be
    read, unreadable body). *)
Theorem getParentSubaccount_never_rejects :
  forall (addr : string) (n : Z)
         (fetched : Promise (Response Indexer.ParentSubaccountResponse)),
    Indexer.getParentSubaccount addr n fetched
    = Resolved
        match fetched with
        | Resolved r =>
            if ok r then
              match json r with
              | Resolved data => data
              | Rejected => Indexer.emptyParent addr n
              end
            else Indexer.emptyParent addr n
        | Rejected => Indexer.emptyParent addr n
        end.
Proof.
  intros addr n fetched. unfold Indexer.getParentSubaccount.
  destruct fetched as [r|]; simpl; [|reflexivity].
  destruct (ok r); simpl.
  - destruct (json r); reflexivity.
  - destruct (status r =? 404)%Z; [reflexivity|]. destruct (text r); reflexivity.
Qed.

(** X2. [getSubaccounts] never rejects: it resolves to the child
    subaccounts that the response carries, and to the empty list when the
    request fails in any way or the body has no [subaccount] or no
    [childSubaccounts]. *)
Theorem getSubaccounts_children :
  forall (addr : string)
         (fetched : Promise (Response Indexer.ParentSubaccountResponse)),
    Indexer.getSubaccounts addr fetched
    = Resolved (Indexer.mkSubaccountResponse (carriedChildren fetched)).
Proof.
  intros addr fetched.
  unfold Indexer.getSubaccounts, Indexer.getParentSubaccount, carriedChildren.
  destruct fetched as [r|]; simpl; [|reflexivity].
  destruct (ok r); simpl.
  - destruct (json r) as [d|]; simpl; [|reflexivity].
    destruct (Indexer.subaccount d) as [sa|]; simpl; [|reflexivity].
    destruct (Indexer.childSubaccounts sa); reflexivity.
  - destruct (status r =? 404)%Z; [reflexivity|]. destruct (text r); reflexivity.
Qed.

(** X3. [getAllSubaccountAssets] never rejects and answers one group
    per child subaccount, in order, under that subaccount's number; a
    group has as many positions as the child's [assetPositions] object has
    entries (none when the object is missing), and every position carries
    the number of its group. *)
Theorem getAllSubaccountAssets_groups :
  forall (addr : string) (n : Z)
         (fetched : Promise (Response Indexer.ParentSubaccountResponse)),
    exists result,
      Indexer.getAllSubaccountAssets addr n fetched = Resolved result
      /\ map fst result = map Indexer.sub_subaccountNumber (carriedChildren fetched)
      /\ map (fun g => List.length (snd g)) result
         = map (fun child =>
                  match Indexer.assetPositions child with
                  | Some aps => List.length aps
                  | None => 0%nat
                  end) (carriedChildren fetched)
      /\ (forall num ps p,
            In (num, ps) result -> In p ps ->
            Indexer.subaccountNumber p = Some num).
Proof.
  intros addr n fetched.
  exists (map Indexer.childPositions (carriedChildren fetched)).
  split; [|split; [|split]].
  - unfold Indexer.getAllSubaccountAssets, Indexer.getParentSubaccount,
      carriedChildren.
    destruct fetched as [r|]; simpl; [|reflexivity].
    destruct (ok r); simpl.
    + destruct (json r) as [d|]; simpl; [|reflexivity].
      destruct (Indexer.subaccount d) as [sa|]; simpl; [|reflexivity].
      destruct (Indexer.childSubaccounts sa) as [[|c cs]|]; reflexivity.
    + destruct (status r =? 404)%Z; [reflexivity|]. destruct (text r); reflexivity.
  - rewrite map_map. reflexivity.
  - rewrite map_map. apply map_ext. intros child. unfold Indexer.childPositions.
    cbn [snd]. destruct (Indexer.assetPositions child); [|reflexivity].
    apply length_map.
  - intros num ps p Hin Hp. apply in_map_iff in Hin.
    destruct Hin as (child & E & _). unfold Indexer.childPositions in E.
    injection E as <- <-.
    destruct (Indexer.assetPositions child) as [aps|]; [|destruct Hp].
    apply in_map_iff in Hp. destruct Hp as ([k pos] & <- & _). reflexivity.
Qed.

(** X4. [getAssetInfo], [getAssetPrices] and
    [getSubaccountAssetPositions] reject in exactly one situation: the
    response is in 200-299 and reading its body fails.  A rejected
    [fetch] and every other status never reach the caller. *)
Theorem unawaited_body_rejections :
  (forall fetched,
      getAssetInfo fetched = Rejected <->
      exists r, fetched = Resolved r /\ ok r = true /\ json r = Rejected)
  /\ (forall fetched,
      getAssetPrices fetched = Rejected <->
      exists r, fetched = Resolved r /\ ok r = true /\ json r = Rejected)
  /\ (forall fetched,
      Indexer.getSubaccountAssetPositions fetched = Rejected <->
      exists r, fetched = Resolved r /\ ok r = true /\ json r = Rejected).
Proof.
  repeat split.
  all: try (intros H; destruct fetched as [r|]; [|discriminate H];
            exists r; split; [reflexivity|];
            revert H;
            unfold getAssetInfo, getAssetPrices, Indexer.getSubaccountAssetPositions;
            simpl; destruct (ok r); simpl;
            [ intros H; auto
            | try destruct (status r =? 404)%Z; intros H; discriminate H ]).
  all: intros (r & -> & Hok & Hj);
    unfold getAssetInfo, getAssetPrices, Indexer.getSubaccountAssetPositions;
    simpl; rewrite Hok; simpl; exact Hj.
Qed.

Lemma stripTrailingSlash_slash (b : string) : Str.stripTrailingSlash (b ++ "/") = b.
Proof.
  induction b as [|c b IH]; [reflexivity|].
  cbn [append Str.stripTrailingSlash]. rewrite IH.
  destruct (b ++ "/") eqn:E; [|reflexivity].
  destruct b; discriminate E.
Qed.

Lemma stripTrailingSlash_cases (s : string) :
  (exists b, s = b ++ "/" /\ Str.stripTrailingSlash s = b)
  \/ ((forall b, s <> b ++ "/") /\ Str.stripTrailingSlash s = s).
Proof.
  induction s as [|c s IH].
  - right. split; [|reflexivity]. intros [|? ?]; discriminate.
  - destruct s as [|d s'].
    + cbn. destruct (Ascii.eqb_spec c "/") as [->|N].
      * left. exists "". split; reflexivity.
      * right. split; [|reflexivity].
        intros [|x [|y b]] E; cbn in E; try discriminate E.
        injection E as E. contradiction.
    + destruct IH as [(b & E & Hs)|(N & Hs)].
      * left. exists (String c b). cbn [append]. rewrite <- E. split; [reflexivity|].
        cbn [Str.stripTrailingSlash]. cbn [Str.stripTrailingSlash] in Hs.
        rewrite Hs. reflexivity.
      * right. split.
        -- intros [|x b] E; cbn in E; [discriminate E|].
           injection E as _ E. exact (N b E).
        -- cbn [Str.stripTrailingSlash]. cbn [Str.stripTrailingSlash] in Hs.
           rewrite Hs. reflexivity.
Qed.

(** X5. Both clients drop one trailing slash of the base URL: built
    from [base ++ "/"], the request URLs are [base] followed by the path,
    and when [base] itself has no trailing slash the clients built from
    [base] and from [base ++ "/"] are the same. *)
Theorem client_urls_ignore_one_trailing_slash :
  forall (base addr : string) (n : Z) (st : Indexer.PositionStatus),
    let withSlash := Indexer.createIndexerClient (base ++ "/") in
    Indexer.parentSubaccountUrl withSlash addr n
    = base ++ "/v4/addresses/" ++ addr ++ "/parentSubaccountNumber/" ++ Str.ofInt n
    /\ Indexer.assetPositionsUrl withSlash addr n st
       = base ++ "/v4/addresses/" ++ addr ++ "/subaccounts/" ++ Str.ofInt n
         ++ "/asset-positions?status=" ++ Indexer.statusText st
    /\ infoUrl (createMetadataClient (base ++ "/")) = base ++ "/info"
    /\ pricesUrl (createMetadataClient (base ++ "/")) = base ++ "/prices"
    /\ ((forall b, base <> b ++ "/") ->
        Indexer.createIndexerClient base = withSlash
        /\ createMetadataClient base = createMetadataClient (base ++ "/")).
Proof.
  intros base addr n st withSlash. subst withSlash.
  unfold Indexer.parentSubaccountUrl, Indexer.assetPositionsUrl, infoUrl, pricesUrl,
    Indexer.createIndexerClient, createMetadataClient.
  cbn [Indexer.baseUrl metadataBaseUrl].
  rewrite stripTrailingSlash_slash.
  repeat split.
  all: destruct (stripTrailingSlash_cases base) as [(b & E & _)|(_ & ->)];
    [ exfalso; exact (H b E) | reflexivity ].
Qed.

Lemma client_urls_ignore_one_trailing_slash_witness :
  Indexer.createIndexerClient "https://dydx1.forcast.money"
  = Indexer.createIndexerClient "https://dydx1.forcast.money/".
Proof.
  refine (proj1 (proj2 (proj2 (proj2 (proj2
    (client_urls_ignore_one_trailing_slash "https://dydx1.forcast.money" ""
       0 Indexer.OPEN)))) _)).
  intros b E.
  assert (H : Str.stripTrailingSlash "https://dydx1.forcast.money"
              = Str.stripTrailingSlash (b ++ "/")) by (rewrite E; reflexivity).
  rewrite stripTrailingSlash_slash in H. subst b. vm_compute in E. discriminate E.
Defined.

End ClientFacts.

Section ResolverFacts.

Lemma fuzzyLoop_fst_map denom entries : forall exponent m1 m2,
  fst (fuzzyLoop denom entries exponent m1) = fst (fuzzyLoop denom entries exponent m2).
Proof.
  induction entries as [|[s i] entries IH]; intros exponent m1 m2; simpl;
    [reflexivity|].
  destruct (fuzzyMatch denom s); [|apply IH].
  destruct (precedenceExponent i) as [e|]; [|apply IH].
  destruct (0 <? e)%Z; [reflexivity | apply IH].
Qed.

Lemma resolveExponent_same st b :
  resolveExponent (snd (formatBalance st b)) (denom b) = resolveExponent st (denom b).
Proof.
  unfold resolveExponent.
  rewrite formatBalance_infoMap, formatBalance_expMap. unfold resolveExponent.
  destruct (JsMap.get (denomExponentMap st) (denom b)) as [e|] eqn:G.
  - cbn [snd]. rewrite G. reflexivity.
  - destruct (find (fun entry =>
                fuzzyMatch (denom b) (fst entry)
                && definedPositive (precedenceExponent (snd entry)))
                (JsMap.entries (assetInfoMap st))) as [[s i]|] eqn:F.
    + rewrite (fuzzyLoop_find _ _ None (denomExponentMap st) _ _ F).
      destruct (find_first _ _ _ F) as (Hx & _). cbn [fst snd] in Hx.
      apply andb_true_iff in Hx. destruct Hx as [_ HP].
      unfold definedPositive in HP.
      destruct (precedenceExponent i) as [e|]; [|discriminate HP].
      cbn [snd]. rewrite get_set_same. reflexivity.
    + pose proof (fuzzyLoop_none _ _ None (denomExponentMap st) F) as E.
      rewrite E, G. reflexivity.
Qed.

Lemma resolveExponent_step st b d :
  fst (resolveExponent (snd (formatBalance st b)) d) = fst (resolveExponent st d).
Proof.
  destruct (String.eqb_spec d (denom b)) as [->|N].
  - rewrite resolveExponent_same. reflexivity.
  - unfold resolveExponent.
    rewrite formatBalance_infoMap, (formatBalance_get_other st b d N).
    destruct (JsMap.get (denomExponentMap st) d); [reflexivity|].
    apply fuzzyLoop_fst_map.
Qed.

Lemma resolveExponent_afterBalances calls : forall st d,
  fst (resolveExponent (afterBalances st calls) d) = fst (resolveExponent st d).
Proof.
  induction calls as [|b calls IH]; intros st d; [reflexivity|].
  unfold afterBalances in *. cbn [fold_left]. rewrite IH.
  apply resolveExponent_step.
Qed.

Lemma formatBalance_fst st b :
  fst (formatBalance st b)
  = let exponent := fst (resolveExponent st (denom b)) in
    let c := Amount.getConvertedAmount (amount b) (denom b) exponent in
    mkFormattedBalance (amount b) (Amount.converted c) (denom b) (Amount.base c)
      (Str.startsWith (denom b) "ibc/")
      (match exponent with Some _ => true | None => false end
       || Str.startsWith (denom b) "u" || Str.startsWith (denom b) "a")
      exponent.
Proof.
  unfold formatBalance. destruct (resolveExponent st (denom b)). reflexivity.
Qed.

(** X9. The cache in the exponent map does not change what
    [formatBalance] answers: after any sequence of earlier [formatBalance]
    calls the record for a balance is the one the fresh state gives, and
    calling it again on the state it left returns the same record and the
    same state. *)
Theorem formatBalance_render_order :
  forall (st : Precision) (calls : list Coin) (balance : Coin),
    fst (formatBalance (afterBalances st calls) balance)
    = fst (formatBalance st balance)
    /\ formatBalance (snd (formatBalance st balance)) balance
       = formatBalance st balance.
Proof.
  intros st calls balance. split.
  - rewrite !formatBalance_fst, resolveExponent_afterBalances. reflexivity.
  - pose proof (resolveExponent_same st balance) as E.
    unfold formatBalance at 1. rewrite E, formatBalance_infoMap.
    unfold formatBalance. destruct (resolveExponent st (denom balance)). reflexivity.
Qed.

(** X11. The exponent map is shared between the two formatters: when
    [formatBalance] caches, under a denom, the exponent of the symbol it
    matched, [formatSubaccountAsset] on a position whose symbol is that
    denom answers the cached exponent afterwards, where before the call
    it answered the exponent of the symbol's own metadata record. *)
Theorem fuzzy_cache_shadows_metadata :
  forall (st : Precision) (balance : Coin) (symbol : string) (info own : AssetInfo)
         (position : Indexer.AssetPosition),
    JsMap.get (denomExponentMap st) (denom balance) = None ->
    firstPositiveMatch st (denom balance) = Some (symbol, info) ->
    JsMap.get (assetInfoMap st) (denom balance) = Some own ->
    Indexer.symbol position = denom balance ->
    fa_exponent (formatSubaccountAsset st position) = precedenceExponent own
    /\ fa_exponent (formatSubaccountAsset (snd (formatBalance st balance)) position)
       = precedenceExponent info.
Proof.
  intros st balance symbol info own position G F Hown Hsym.
  unfold formatSubaccountAsset. cbn [fa_exponent]. rewrite Hsym.
  rewrite formatBalance_infoMap, formatBalance_expMap, G, Hown.
  split; [reflexivity|].
  unfold resolveExponent. rewrite G. unfold firstPositiveMatch in F.
  rewrite (fuzzyLoop_find _ _ None (denomExponentMap st) _ _ F).
  destruct (find_first _ _ _ F) as (Hx & _). cbn [fst snd] in Hx.
  apply andb_true_iff in Hx. destruct Hx as [_ HP].
  unfold definedPositive in HP.
  destruct (precedenceExponent info) as [e|]; [|discriminate HP].
  cbn [snd]. rewrite get_set_same. reflexivity.
Qed.

Lemma fuzzy_cache_shadows_metadata_witness :
  fa_exponent (formatSubaccountAsset (ingest Sample.assets) Sample.btcPosition)
  = Some (-10)
  /\ fa_exponent
       (formatSubaccountAsset
          (snd (formatBalance (ingest Sample.assets) (mkCoin "25" "BTC")))
          Sample.btcPosition)
     = Some 8.
Proof.
  exact (fuzzy_cache_shadows_metadata (ingest Sample.assets) (mkCoin "25" "BTC")
           "WBTC" Sample.wbtcInfo Sample.btcInfo Sample.btcPosition
           eq_refl eq_refl eq_refl eq_refl).
Defined.

Lemma fuzzyLoop_nomatch denom entries : forall exponent m,
  (forall s i, In (s, i) entries -> fuzzyMatch denom s = false) ->
  fuzzyLoop denom entries exponent m = (exponent, m).
Proof.
  induction entries as [|[s i] entries IH]; intros exponent m H; simpl;
    [reflexivity|].
  rewrite (H s i (or_introl eq_refl)). apply IH.
  intros s' i' Hin. apply (H s' i'). right. exact Hin.
Qed.

(** X10. When the denom has no entry in the exponent map and matches no
    symbol of the metadata, [formatBalance] resolves no exponent, flags the
    balance as converted exactly when the denom starts with "u" or "a",
    and leaves the state as it was. *)
Theorem formatBalance_without_match :
  forall (st : Precision) (balance : Coin),
    JsMap.get (denomExponentMap st) (denom balance) = None ->
    (forall s i, In (s, i) (JsMap.entries (assetInfoMap st)) ->
                 fuzzyMatch (denom balance) s = false) ->
    fb_exponent (fst (formatBalance st balance)) = None
    /\ fb_isConverted (fst (formatBalance st balance))
       = Str.startsWith (denom balance) "u" || Str.startsWith (denom balance) "a"
    /\ snd (formatBalance st balance) = st.
Proof.
  intros st balance G H. unfold formatBalance, resolveExponent. rewrite G.
  rewrite (fuzzyLoop_nomatch _ _ None (denomExponentMap st) H).
  cbn [fst snd fb_exponent fb_isConverted]. repeat split.
  destruct st. reflexivity.
Qed.

Lemma formatBalance_without_match_witness :
  fb_exponent (fst (formatBalance (ingest Sample.bitcoinOnly) Sample.dydxCoin)) = None.
Proof.
  refine (proj1 (formatBalance_without_match (ingest Sample.bitcoinOnly)
                   Sample.dydxCoin eq_refl _)).
  intros s i Hin. vm_compute in Hin.
  destruct Hin as [E|[E|[]]]; injection E as <- _; reflexivity.
Defined.

Lemma set_fresh {V} (m : JsMap.t V) k v :
  ~ In k (map fst m) -> JsMap.set m k v = (m ++ [(k, v)])%list.
Proof.
  induction m as [|[k' v'] m IH]; intros N; simpl; [reflexivity|].
  simpl in N. destruct (String.eqb_spec k' k) as [->|]; [tauto|].
  rewrite IH by tauto. reflexivity.
Qed.

Lemma positiveEntries_keys l k :
  In k (map fst (positiveEntries l)) -> In k (map fst l).
Proof.
  induction l as [|[s i] l IH]; simpl; [tauto|].
  rewrite map_app, in_app_iff. intros [H|H]; [|auto].
  left. destruct (precedenceExponent i) as [e|]; [|destruct H].
  destruct (0 <? e)%Z; [|destruct H]. destruct H as [H|[]]. exact H.
Qed.

Lemma ingest_fold_unique l : forall acc,
  NoDup (map fst (assetInfoMap acc) ++ map fst l) ->
  (forall k, In k (map fst (denomExponentMap acc)) -> In k (map fst (assetInfoMap acc))) ->
  assetInfoMap (fold_left ingestEntry l acc) = (assetInfoMap acc ++ l)%list
  /\ denomExponentMap (fold_left ingestEntry l acc)
     = (denomExponentMap acc ++ positiveEntries l)%list.
Proof.
  induction l as [|[s i] l IH]; intros acc ND Hsub; cbn [fold_left].
  - rewrite !app_nil_r. auto.
  - assert (Ns : ~ In s (map fst (assetInfoMap acc))).
    { intros Hin. apply NoDup_remove_2 in ND. apply ND.
      apply in_or_app. left. exact Hin. }
    assert (EI : assetInfoMap (ingestEntry acc (s, i))
                 = (assetInfoMap acc ++ [(s, i)])%list).
    { rewrite ingestEntry_infoMap. apply set_fresh. exact Ns. }
    assert (EE : denomExponentMap (ingestEntry acc (s, i))
                 = (denomExponentMap acc ++ positiveEntries [(s, i)])%list).
    { rewrite ingestEntry_expMap. unfold positiveEntries. cbn [flat_map fst snd].
      destruct (precedenceExponent i) as [e|]; [|rewrite !app_nil_r; reflexivity].
      destruct (0 <? e)%Z; [|rewrite !app_nil_r; reflexivity].
      rewrite app_nil_r. apply set_fresh. intros Hin. apply Ns, Hsub, Hin. }
    destruct (IH (ingestEntry acc (s, i))) as [H1 H2].
    + rewrite EI, map_app. cbn [map fst]. rewrite <- app_assoc. exact ND.
    + intros k. rewrite EI, EE, !map_app, !in_app_iff.
      intros [H|H]; [left; apply Hsub, H|].
      right. apply (positiveEntries_keys [(s, i)]). exact H.
    + rewrite H1, H2, EI, EE. split; rewrite <- app_assoc; [reflexivity|].
      unfold positiveEntries. cbn [flat_map]. rewrite app_nil_r. reflexivity.
Qed.

(** X7. Ingestion of a metadata response keeps the order of the
    response: the info map lists its entries as they came, the exponent
    map lists, in the same order, the symbols whose resolved exponent is
    positive, and every symbol of the exponent map is a symbol of the info
    map. *)
Theorem ingest_unique_keys :
  forall assetInfo : list (string * AssetInfo),
    NoDup (map fst assetInfo) ->
    assetInfoMap (ingest assetInfo) = assetInfo
    /\ denomExponentMap (ingest assetInfo) = positiveEntries assetInfo
    /\ (forall symbol,
          JsMap.get (denomExponentMap (ingest assetInfo)) symbol <> None ->
          JsMap.get (assetInfoMap (ingest assetInfo)) symbol <> None).
Proof.
  intros assetInfo ND.
  destruct (ingest_fold_unique assetInfo (mkPrecision JsMap.empty JsMap.empty))
    as [H1 H2]; [exact ND | intros k []|].
  fold (ingest assetInfo) in H1, H2. cbn in H1, H2.
  split; [exact H1 | split; [exact H2|]].
  intros symbol. rewrite H1, H2. clear.
  induction assetInfo as [|[s i] l IH]; [intros H; exfalso; apply H; reflexivity|].
  unfold positiveEntries. cbn [flat_map fst snd JsMap.get].
  destruct (String.eqb_spec s symbol) as [->|N]; [intros _; discriminate|].
  intros H. apply IH. intros G. apply H.
  destruct (precedenceExponent i) as [e|]; [|exact G].
  destruct (0 <? e)%Z; [|exact G].
  cbn [app JsMap.get]. destruct (String.eqb_spec s symbol); [contradiction|exact G].
Qed.

Lemma ingest_unique_keys_witness :
  denomExponentMap (ingest Sample.assets) = [("WBTC", 8); ("ETH", 9)].
Proof.
  refine (proj1 (proj2 (ingest_unique_keys Sample.assets _))).
  repeat constructor; simpl; intuition discriminate.
Defined.

End ResolverFacts.

Section MatchFacts.

Lemma lower_ascii_idem (c : ascii) :
  Str.lower_ascii (Str.lower_ascii c) = Str.lower_ascii c.
Proof.
  destruct c as [[] [] [] [] [] [] [] []]; reflexivity.
Qed.

Lemma toLowerCase_idem (s : string) :
  Str.toLowerCase (Str.toLowerCase s) = Str.toLowerCase s.
Proof.
  induction s as [|c s IH]; simpl; [reflexivity|].
  rewrite lower_ascii_idem, IH. reflexivity.
Qed.

Lemma includes_empty (s : string) : Str.includes s "" = true.
Proof. destruct s; reflexivity. Qed.

(** X8. The fuzzy test is symmetric in the denom and the symbol,
    insensitive to the case of either, true of a string and itself, and
    true whenever the symbol or the denom is empty: an entry with an empty
    symbol matches every denom. *)
Theorem fuzzyMatch_relation :
  forall denom symbol : string,
    fuzzyMatch denom symbol = fuzzyMatch symbol denom
    /\ fuzzyMatch (Str.toLowerCase denom) symbol = fuzzyMatch denom symbol
    /\ fuzzyMatch denom (Str.toLowerCase symbol) = fuzzyMatch denom symbol
    /\ fuzzyMatch denom denom = true
    /\ fuzzyMatch denom "" = true
    /\ fuzzyMatch "" symbol = true.
Proof.
  intros denom symbol. unfold fuzzyMatch. cbv zeta.
  rewrite !toLowerCase_idem. repeat split.
  - rewrite (String.eqb_sym (Str.toLowerCase denom)).
    destruct (String.eqb (Str.toLowerCase symbol) (Str.toLowerCase denom)),
             (Str.includes (Str.toLowerCase denom) (Str.toLowerCase symbol)),
             (Str.includes (Str.toLowerCase symbol) (Str.toLowerCase denom));
      reflexivity.
  - rewrite String.eqb_refl. reflexivity.
  - change (Str.toLowerCase "") with "". rewrite includes_empty.
    apply orb_true_iff. left. apply orb_true_r.
  - change (Str.toLowerCase "") with "". rewrite includes_empty.
    apply orb_true_r.
Qed.

End MatchFacts.

Section TokenFacts.

Lemma string_app_assoc (a b c : string) : (a ++ b) ++ c = a ++ b ++ c.
Proof. induction a as [|x a IH]; simpl; [reflexivity | now rewrite IH]. Qed.

Lemma includes_prefix (s p : string) :
  String.prefix p s = true -> forall sub, Str.includes p sub = true ->
  Str.includes s sub = true.
Proof.
  intros Hp sub Hi. apply includes_spec in Hi. destruct Hi as (pre & post & ->).
  destruct (prefix_occurs _ _ Hp) as [rest ->].
  apply includes_spec. exists pre, (post ++ rest).
  rewrite !string_app_assoc. reflexivity.
Qed.

(** X13. The native and the IBC tokens partition the balances: every
    balance is in exactly one of the two lists and their lengths add up;
    a balance that [formatBalance] flags as IBC (denom starting with
    "ibc/") is always in the IBC list. *)
Theorem native_ibc_partition :
  forall (bals : list Coin),
    (forall b, In b bals <-> In b (nativeTokens bals) \/ In b (ibcTokens bals))
    /\ (forall b, ~ (In b (nativeTokens bals) /\ In b (ibcTokens bals)))
    /\ (List.length (nativeTokens bals) + List.length (ibcTokens bals)
        = List.length bals)%nat
    /\ (forall st b, In b bals ->
          fb_isIBC (fst (formatBalance st b)) = true -> In b (ibcTokens bals)).
Proof.
  intros bals. unfold nativeTokens, ibcTokens.
  split; [|split; [|split]].
  - intros b. split.
    + intros Hb. destruct (Str.includes (denom b) "/") eqn:E.
      * right. apply filter_In. auto.
      * left. apply filter_In. rewrite E. auto.
    + intros [H|H]; apply filter_In in H; tauto.
  - intros b [H1 H2]. apply filter_In in H1, H2.
    destruct H1 as [_ H1], H2 as [_ H2]. rewrite H2 in H1. discriminate H1.
  - induction bals as [|b bals IH]; simpl; [reflexivity|].
    destruct (Str.includes (denom b) "/"); simpl; lia.
  - intros st b Hb Hibc. apply filter_In. split; [exact Hb|].
    rewrite formatBalance_fst in Hibc. cbn [fb_isIBC] in Hibc.
    apply (includes_prefix (denom b) "ibc/" Hibc). reflexivity.
Qed.

Lemma native_ibc_partition_witness :
  In (mkCoin "1" "ibc/0") (ibcTokens Sample.ibc23).
Proof.
  refine (proj2 (proj2 (proj2 (native_ibc_partition Sample.ibc23)))
            (ingest Sample.assets) (mkCoin "1" "ibc/0") _ _).
  - right. left. reflexivity.
  - reflexivity.
Defined.

End TokenFacts.

Section PageFacts.

Lemma chunks_concat (d : nat) : forall (m : nat) {A} (l : list A),
  (List.length l <= m * d)%nat ->
  List.concat (map (fun k => firstn d (skipn (k * d) l)) (seq 0 m)) = l.
Proof.
  induction m as [|m IH]; intros A l Hlen.
  - destruct l; [reflexivity | simpl in Hlen; lia].
  - cbn [seq map List.concat]. rewrite <- seq_shift, map_map.
    cbn [Nat.mul skipn].
    rewrite (map_ext _ (fun k => firstn d (skipn (k * d) (skipn d l)))).
    + rewrite IH by (rewrite length_skipn; lia). apply firstn_skipn.
    + intros k. rewrite skipn_skipn. do 2 f_equal. lia.
Qed.

Lemma page_window (pg : Paging) (k : nat) :
  0 < itemsPerPage pg ->
  paginatedIbcTokens (setCurrentPage pg (Z.of_nat k + 1))
  = firstn (Z.to_nat (itemsPerPage pg))
      (skipn (k * Z.to_nat (itemsPerPage pg)) (ibcTokens (balances pg))).
Proof.
  intros Hd. unfold paginatedIbcTokens, endIndex, startIndex, setCurrentPage.
  cbn [currentPage itemsPerPage balances].
  rewrite slice_window by nia. f_equal; [f_equal; lia|]. f_equal. nia.
Qed.

(** X15. With a positive page size the pages 1 to [totalPages]
    partition the IBC tokens: concatenated in order they give the token
    list back, there are [totalPages] of them, and each holds between one
    and [itemsPerPage] tokens. *)
Theorem pages_partition_tokens :
  forall pg : Paging,
    0 < itemsPerPage pg ->
    List.concat (allPages pg) = ibcTokens (balances pg)
    /\ List.length (allPages pg) = Z.to_nat (totalPages pg)
    /\ (forall page, In page (allPages pg) ->
          (1 <= List.length page <= Z.to_nat (itemsPerPage pg))%nat).
Proof.
  intros pg Hd. unfold allPages.
  pose proof (ceilDiv_bounds (ibcCount pg) (itemsPerPage pg) Hd) as Hb.
  pose proof (ibcCount_nonneg pg) as Hn.
  fold (totalPages pg) in Hb.
  assert (HT : 0 <= totalPages pg) by nia.
  split; [|split].
  - rewrite (map_ext _ (fun k => firstn (Z.to_nat (itemsPerPage pg))
               (skipn (k * Z.to_nat (itemsPerPage pg)) (ibcTokens (balances pg)))))
      by (intros k; apply page_window; exact Hd).
    apply chunks_concat. unfold ibcCount in Hb. nia.
  - rewrite length_map, length_seq. reflexivity.
  - intros page Hin. apply in_map_iff in Hin. destruct Hin as (k & <- & Hk).
    apply in_seq in Hk. rewrite page_window by exact Hd.
    rewrite length_firstn, length_skipn. unfold ibcCount in Hb. nia.
Qed.

Lemma pages_partition_tokens_witness :
  List.concat (allPages (mkPaging Sample.ibc23 1 10)) = ibcTokens Sample.ibc23.
Proof.
  refine (proj1 (pages_partition_tokens (mkPaging Sample.ibc23 1 10) _)).
  reflexivity.
Defined.

(** X16. On a page inside [1, totalPages] the counters of "Showing a-b
    of n" satisfy [1 <= a <= b <= n], and [b - a + 1] is the number of
    tokens on the page; without IBC tokens both counters are 0 and the
    page is empty. *)
Theorem showing_counters :
  forall pg : Paging,
    0 < itemsPerPage pg ->
    (1 <= currentPage pg <= totalPages pg ->
       1 <= showingStart pg <= showingEnd pg
       /\ showingEnd pg <= ibcCount pg
       /\ showingEnd pg - showingStart pg + 1
          = Z.of_nat (List.length (paginatedIbcTokens pg)))
    /\ (ibcCount pg = 0 -> 1 <= currentPage pg ->
        showingStart pg = 0 /\ showingEnd pg = 0 /\ paginatedIbcTokens pg = []).
Proof.
  intros pg Hd.
  pose proof (ceilDiv_bounds (ibcCount pg) (itemsPerPage pg) Hd) as Hb.
  pose proof (ibcCount_nonneg pg) as Hn.
  fold (totalPages pg) in Hb.
  unfold showingStart, showingEnd, endIndex. split.
  - intros Hp.
    assert (Hs : 0 <= startIndex pg < ibcCount pg) by (unfold startIndex; nia).
    destruct (Z.gtb_spec (ibcCount pg) 0); [|lia].
    unfold paginatedIbcTokens, endIndex. rewrite slice_window by lia.
    rewrite length_firstn, length_skipn. unfold ibcCount in *. lia.
  - intros H0 Hp. rewrite H0. cbn [Z.gtb Z.compare].
    assert (Hs : 0 <= startIndex pg) by (unfold startIndex; nia).
    split; [reflexivity|]. split; [lia|].
    unfold paginatedIbcTokens, endIndex. rewrite slice_window by lia.
    unfold ibcCount in H0.
    destruct (ibcTokens (balances pg)); [|simpl in H0; lia].
    rewrite skipn_nil, firstn_nil. reflexivity.
Qed.

Lemma showing_counters_witness :
  showingEnd (mkPaging Sample.ibc23 3 10) - showingStart (mkPaging Sample.ibc23 3 10) + 1
  = Z.of_nat (List.length (paginatedIbcTokens (mkPaging Sample.ibc23 3 10))).
Proof.
  refine (proj2 (proj2 (proj1
    (showing_counters (mkPaging Sample.ibc23 3 10) _) _))).
  - reflexivity.
  - vm_compute. split; discriminate.
Defined.

(** X17. With a positive page size and on a page inside
    [1, totalPages]: when there is a single page no numbered page button
    is rendered; when there are several, the rendered buttons are
    [min(5, totalPages)] consecutive page numbers inside [1, totalPages],
    and the current page is one of them. *)
Theorem pageButtons_window :
  forall pg : Paging,
    0 < itemsPerPage pg ->
    1 <= currentPage pg <= totalPages pg ->
    (totalPages pg <= 1 -> shownPageButtons pg = [])
    /\ (1 < totalPages pg ->
        exists first,
          shownPageButtons pg
          = map (fun i => first + Z.of_nat i)
                (seq 0 (Z.to_nat (Z.min 5 (totalPages pg))))
          /\ 1 <= first
          /\ first + Z.min 5 (totalPages pg) - 1 <= totalPages pg
          /\ In (currentPage pg) (shownPageButtons pg)).
Proof.
  intros pg Hd Hp. unfold shownPageButtons. split.
  - intros H1. destruct (Z.gtb_spec (totalPages pg) 1); [lia|].
    rewrite andb_false_r. reflexivity.
  - intros H1.
    pose proof (ceilDiv_bounds (ibcCount pg) (itemsPerPage pg) Hd) as Hb.
    fold (totalPages pg) in Hb.
    destruct (Z.gtb_spec (ibcCount pg) 0); [|nia].
    destruct (Z.gtb_spec (totalPages pg) 1); [|lia].
    cbn [andb].
    exists (pageNum (totalPages pg) (currentPage pg) 0).
    assert (E : forall i, pageNum (totalPages pg) (currentPage pg) i
                          = pageNum (totalPages pg) (currentPage pg) 0 + i).
    { intros i. unfold pageNum.
      destruct (totalPages pg <=? 5)%Z; [lia|].
      destruct (currentPage pg <=? 3)%Z; [lia|].
      destruct (currentPage pg >=? totalPages pg - 2)%Z; lia. }
    assert (B : pageButtons pg
                = map (fun i => pageNum (totalPages pg) (currentPage pg) 0
                                + Z.of_nat i)
                      (seq 0 (Z.to_nat (Z.min 5 (totalPages pg))))).
    { unfold pageButtons. apply map_ext. intros i. apply E. }
    split; [exact B|].
    assert (F : 1 <= pageNum (totalPages pg) (currentPage pg) 0
                /\ pageNum (totalPages pg) (currentPage pg) 0
                   + Z.min 5 (totalPages pg) - 1 <= totalPages pg
                /\ 0 <= currentPage pg - pageNum (totalPages pg) (currentPage pg) 0
                   < Z.min 5 (totalPages pg)).
    { unfold pageNum.
      destruct (Z.leb_spec (totalPages pg) 5); [lia|].
      destruct (Z.leb_spec (currentPage pg) 3); [lia|].
      destruct (Z.geb_spec (currentPage pg) (totalPages pg - 2)); lia. }
    destruct F as (F1 & F2 & F3).
    split; [exact F1 | split; [exact F2|]].
    rewrite B. apply in_map_iff.
    exists (Z.to_nat (currentPage pg - pageNum (totalPages pg) (currentPage pg) 0)).
    split; [lia|]. apply in_seq. lia.
Qed.

Lemma pageButtons_window_witness :
  In 7 (shownPageButtons (mkPaging (Sample.ibc23 ++ Sample.ibc23) 7 5)).
Proof.
  assert (Hp : 1 <= currentPage (mkPaging (Sample.ibc23 ++ Sample.ibc23) 7 5)
               <= totalPages (mkPaging (Sample.ibc23 ++ Sample.ibc23) 7 5))
    by (vm_compute; split; discriminate).
  destruct (proj2 (pageButtons_window (mkPaging (Sample.ibc23 ++ Sample.ibc23) 7 5)
                     eq_refl Hp))
    as (first & _ & _ & _ & H).
  - reflexivity.
  - exact H.
Defined.

(** X18. A page set through [handlePageChange] is never reset by the
    token effect.  On a page inside [1, totalPages], the first and last
    buttons lead to page 1 and to [totalPages], the previous and next
    buttons move by one page and stop at the ends, and a numbered button
    leads to its own number. *)
Theorem page_navigation :
  forall (pg : Paging) (page : Z),
    tokensEffect (handlePageChange pg page) = handlePageChange pg page
    /\ (1 <= currentPage pg <= totalPages pg ->
        currentPage (handlePageChange pg 1) = 1
        /\ currentPage (handlePageChange pg (totalPages pg)) = totalPages pg
        /\ currentPage (handlePageChange pg (currentPage pg - 1))
           = Z.max 1 (currentPage pg - 1)
        /\ currentPage (handlePageChange pg (currentPage pg + 1))
           = Z.min (totalPages pg) (currentPage pg + 1)
        /\ (forall n, In n (pageButtons pg) ->
              currentPage (handlePageChange pg n) = n)).
Proof.
  intros pg page. split.
  - unfold tokensEffect.
    change (totalPages (handlePageChange pg page)) with (totalPages pg).
    unfold handlePageChange at 1 2. cbn [setCurrentPage currentPage].
    destruct (Z.gtb_spec (Z.max 1 (Z.min page (totalPages pg))) (totalPages pg));
      destruct (Z.gtb_spec (totalPages pg) 0); cbn [andb]; try reflexivity.
    lia.
  - intros Hp. unfold handlePageChange, setCurrentPage. cbn [currentPage].
    repeat split; try lia.
    intros n Hn. unfold pageButtons in Hn. apply in_map_iff in Hn.
    destruct Hn as (i & <- & Hi). apply in_seq in Hi. unfold pageNum.
    destruct (Z.leb_spec (totalPages pg) 5); [lia|].
    destruct (Z.leb_spec (currentPage pg) 3); [lia|].
    destruct (Z.geb_spec (currentPage pg) (totalPages pg - 2)); lia.
Qed.

Lemma page_navigation_witness :
  currentPage (handlePageChange (mkPaging Sample.ibc23 3 10) (3 + 1)) = 3.
Proof.
  refine (proj1 (proj2 (proj2 (proj2 (proj2
    (page_navigation (mkPaging Sample.ibc23 3 10) 0) _))))).
  vm_compute. split; discriminate.
Defined.

End PageFacts.

Section SymbolFacts.

Lemma truthy_spec (s : string) : Str.truthy s = true <-> s <> "".
Proof. destruct s; simpl; split; congruence. Qed.

Lemma existsb_eqb (x : string) (l : list string) :
  existsb (String.eqb x) l = true <-> In x l.
Proof.
  rewrite existsb_exists. split.
  - intros (y & Hy & E). apply String.eqb_eq in E. subst. exact Hy.
  - intros H. exists x. split; [exact H | apply String.eqb_refl].
Qed.

Lemma setAdd_In (set : list string) (x s : string) :
  In s (setAdd set x) <-> In s set \/ s = x.
Proof.
  unfold setAdd. destruct (existsb (String.eqb x) set) eqn:E.
  - apply existsb_eqb in E. split; [auto|]. intros [H| ->]; assumption.
  - rewrite in_app_iff. simpl. split; intros [H|H]; auto.
    + destruct H as [<-|[]]. auto.
Qed.

Lemma setAdd_NoDup (set : list string) (x : string) :
  NoDup set -> NoDup (setAdd set x).
Proof.
  intros ND. unfold setAdd. destruct (existsb (String.eqb x) set) eqn:E;
    [exact ND|].
  apply NoDup_app; [exact ND | repeat constructor; intros [] |].
  intros y Hy [Ey|[]]. subst y.
  assert (existsb (String.eqb x) set = true) by (apply existsb_eqb; exact Hy).
  congruence.
Qed.

Lemma collect_inner (ps : list Indexer.AssetPosition) : forall acc,
  NoDup acc ->
  let r := fold_left
             (fun acc pos =>
                if Str.truthy (Indexer.symbol pos)
                then setAdd acc (Indexer.symbol pos) else acc) ps acc in
  NoDup r
  /\ forall s, In s r <->
       In s acc \/ (s <> "" /\ exists p, In p ps /\ Indexer.symbol p = s).
Proof.
  induction ps as [|p ps IH]; intros acc ND; cbn [fold_left].
  - split; [exact ND|]. intros s. split; [auto|].
    intros [H|(_ & p & [] & _)]. exact H.
  - destruct (Str.truthy (Indexer.symbol p)) eqn:T.
    + destruct (IH (setAdd acc (Indexer.symbol p)) (setAdd_NoDup _ _ ND)) as [N H].
      split; [exact N|]. intros s. rewrite H, setAdd_In.
      apply truthy_spec in T. split.
      * intros [[Hs| ->]|(Hne & q & Hq & E)]; auto.
        -- right. split; [exact T|]. exists p. simpl. auto.
        -- right. split; [exact Hne|]. exists q. simpl. auto.
      * intros [Hs|(Hne & q & [<-|Hq] & E)]; auto.
        right. split; [exact Hne|]. exists q. auto.
    + destruct (IH acc ND) as [N H]. split; [exact N|].
      intros s. rewrite H. split.
      * intros [Hs|(Hne & q & Hq & E)]; auto.
        right. split; [exact Hne|]. exists q. simpl. auto.
      * intros [Hs|(Hne & q & [<-|Hq] & E)]; auto.
        -- subst s. apply truthy_spec in Hne. congruence.
        -- right. split; [exact Hne|]. exists q. auto.
Qed.

Lemma collect_outer (data : list (Z * list Indexer.AssetPosition)) : forall acc,
  NoDup acc ->
  let r := fold_left
             (fun acc entry =>
                fold_left
                  (fun acc pos =>
                     if Str.truthy (Indexer.symbol pos)
                     then setAdd acc (Indexer.symbol pos) else acc)
                  (snd entry) acc) data acc in
  NoDup r
  /\ forall s, In s r <->
       In s acc
       \/ (s <> "" /\ exists num ps p,
             In (num, ps) data /\ In p ps /\ Indexer.symbol p = s).
Proof.
  induction data as [|[num ps] data IH]; intros acc ND; cbn [fold_left snd].
  - split; [exact ND|]. intros s. split; [auto|].
    intros [H|(_ & ? & ? & ? & [] & _)]. exact H.
  - destruct (collect_inner ps acc ND) as [N1 H1].
    destruct (IH _ N1) as [N H]. split; [exact N|].
    intros s. rewrite H, H1. split.
    + intros [[Hs|(Hne & p & Hp & E)]|(Hne & n' & ps' & p & Hin & Hp & E)]; auto.
      * right. split; [exact Hne|]. exists num, ps, p. simpl. auto.
      * right. split; [exact Hne|]. exists n', ps', p. simpl. auto.
    + intros [Hs|(Hne & n' & ps' & p & [Hin|Hin] & Hp & E)]; auto.
      * injection Hin as <- <-. left. right. split; [exact Hne|]. exists p. auto.
      * right. split; [exact Hne|]. exists n', ps', p. auto.
Qed.

(** X6. The symbols sent to the metadata service are each listed once
    and are exactly the non-empty symbols of the positions of the
    subaccount groups; the service is not queried exactly when every
    position has an empty symbol (in particular when there is none). *)
Theorem collectSymbols_exact :
  forall data : list (Z * list Indexer.AssetPosition),
    NoDup (collectSymbols data)
    /\ (forall s,
          In s (collectSymbols data) <->
          s <> "" /\ exists num ps p,
            In (num, ps) data /\ In p ps /\ Indexer.symbol p = s)
    /\ (queriesMetadata data = false <->
        forall num ps p, In (num, ps) data -> In p ps -> Indexer.symbol p = "").
Proof.
  intros data. unfold queriesMetadata, collectSymbols.
  destruct (collect_outer data [] (NoDup_nil _)) as [N H]. cbv zeta in N, H.
  split; [exact N|]. split.
  - intros s. rewrite H. split; [intros [[]|H']; exact H' | auto].
  - split.
    + intros E num ps p Hin Hp.
      destruct (Indexer.symbol p) as [|c r] eqn:S; [reflexivity|].
      assert (Hs : In (String c r)
                (fold_left
                   (fun acc entry =>
                      fold_left
                        (fun acc pos =>
                           if Str.truthy (Indexer.symbol pos)
                           then setAdd acc (Indexer.symbol pos) else acc)
                        (snd entry) acc) data [])).
      { apply H. right. split; [discriminate|]. exists num, ps, p. auto. }
      destruct (fold_left _ data []); [destruct Hs | discriminate E].
    + intros Hall.
      destruct (fold_left _ data []) as [|s l] eqn:F; [reflexivity|].
      exfalso. destruct (proj1 (H s) (or_introl eq_refl)) as [[]|(Hne & num & ps & p & Hin & Hp & E)].
      apply Hne. rewrite <- E. exact (Hall num ps p Hin Hp).
Qed.

End SymbolFacts.

Section RowFacts.

(** X14. With a native delegation, a row of the native-token table
    shows it exactly when there is no native balance at all or some native
    balance has the delegation's denom; when native balances exist, the
    rows are theirs, one each and in order, so a delegation in a denom
    without balance is not shown. *)
Theorem nativeRows_delegation :
  forall (bals : list Coin) (stakedBalance : option Coin) (s : Coin),
    nativeStakedToken stakedBalance = Some s ->
    ((exists r, In r (nativeRows bals stakedBalance) /\ row_delegated r = Some s)
     <-> nativeTokens bals = []
         \/ exists b, In b (nativeTokens bals) /\ denom b = denom s)
    /\ (nativeTokens bals <> [] ->
        map row_denom (nativeRows bals stakedBalance)
        = map denom (nativeTokens bals)
        /\ map row_available (nativeRows bals stakedBalance)
           = map amount (nativeTokens bals)).
Proof.
  intros bals stakedBalance s Hs. unfold nativeRows.
  destruct (nativeTokens bals) as [|t ts] eqn:NT.
  - rewrite Hs. split.
    + split; [auto|]. intros _. eexists. split; [left; reflexivity | reflexivity].
    + intros H. contradiction.
  - split.
    + split.
      * intros (r & Hin & Hd). right. apply in_map_iff in Hin.
        destruct Hin as (b & <- & Hb). exists b. split; [exact Hb|].
        cbn [row_delegated] in Hd. unfold stakedForThisToken in Hd.
        rewrite Hs in Hd.
        destruct (String.eqb_spec (denom s) (denom b)); [auto | discriminate Hd].
      * intros [H|(b & Hb & E)]; [discriminate H|].
        eexists. split; [apply in_map; exact Hb|].
        cbn [row_delegated]. unfold stakedForThisToken. rewrite Hs, E.
        rewrite String.eqb_refl. reflexivity.
    + intros _. rewrite !map_map. split; reflexivity.
Qed.

Lemma nativeRows_delegation_witness :
  ~ exists r,
      In r (nativeRows [Sample.usdcCoin] (Some Sample.dydxStaked))
      /\ row_delegated r = Some Sample.dydxStaked.
Proof.
  intros H.
  apply (proj1 (proj1 (nativeRows_delegation [Sample.usdcCoin]
                         (Some Sample.dydxStaked) Sample.dydxStaked eq_refl))) in H.
  destruct H as [H|(b & [<-|[]] & E)]; discriminate.
Defined.

End RowFacts.

Section DecodingFacts.

Variable DecodeMsg : Type.
Variable Tx_decode : string -> option TxData.
Variable decodeMsg : string -> string -> option DecodeMsg.

Let decodes (t : TxResponse) : bool :=
  match Tx_decode (tx t) with Some _ => true | None => false end.

Lemma decodedSet_order (txs : list TxResponse) :
  map fst (decodedSet DecodeMsg Tx_decode decodeMsg txs) = filter decodes txs.
Proof.
  induction txs as [|t txs IH]; [reflexivity|].
  unfold decodedSet in *. cbn [flat_map filter]. unfold decodes at 1.
  destruct (Tx_decode (tx t)); cbn [app map fst]; rewrite IH; reflexivity.
Qed.

(** X20. The decoding effect lists the transactions whose envelope
    decodes in the order of the raw list, never more than the raw list
    has; run again on its result it changes nothing; and when the raw list
    is empty it leaves the earlier decoded list in place. *)
Theorem decodeEffect_order_and_staleness :
  forall st : TxState DecodeMsg,
    let st' := decodeEffect DecodeMsg Tx_decode decodeMsg st in
    (transactions DecodeMsg st <> [] ->
       map fst (decodedTxs DecodeMsg st')
       = filter (fun t => match Tx_decode (tx t) with
                          | Some _ => true | None => false end)
                (transactions DecodeMsg st)
       /\ (List.length (decodedTxs DecodeMsg st')
           <= List.length (transactions DecodeMsg st))%nat)
    /\ (transactions DecodeMsg st = [] ->
        decodedTxs DecodeMsg st' = decodedTxs DecodeMsg st)
    /\ decodeEffect DecodeMsg Tx_decode decodeMsg st' = st'.
Proof.
  intros st st'. subst st'. unfold decodeEffect.
  destruct st as [txs dec]. cbn [transactions decodedTxs].
  destruct txs as [|t txs].
  - cbn. split; [intros H; contradiction | split; reflexivity].
  - cbn [List.length Nat.ltb Nat.leb transactions decodedTxs].
    rewrite decodeLoop_app. cbn [app].
    split; [|split; [intros H; discriminate H | reflexivity]].
    intros _. split; [apply decodedSet_order|].
    rewrite <- (length_map fst), decodedSet_order. apply filter_length_le.
Qed.

End DecodingFacts.

Lemma decodeEffect_order_and_staleness_witness :
  map fst
    (decodedTxs string
       (decodeEffect string Sample.sampleTxDecode Sample.sampleDecodeMsg
          (mkTxState string [Sample.badTx; Sample.goodTx; Sample.badTx] [])))
  = [Sample.goodTx].
Proof.
  refine (proj1 (proj1
    (decodeEffect_order_and_staleness string Sample.sampleTxDecode
       Sample.sampleDecodeMsg
       (mkTxState string [Sample.badTx; Sample.goodTx; Sample.badTx] [])) _)).
  discriminate.
Defined.

Section SubaccountFacts.

(** X19. The subaccount section shows the groups that have positions
    and no others; hiding the empty groups loses no position; the "no
    subaccount assets" message appears exactly when there is at least one
    subaccount and no group is shown, and with no subaccount at all
    neither a group nor the message is rendered. *)
Theorem subaccount_groups_shown :
  forall data : list (Z * list Indexer.AssetPosition),
    (showsNoAssets data = true <-> data <> [] /\ shownGroups data = [])
    /\ (data = [] -> showsNoAssets data = false /\ shownGroups data = [])
    /\ List.concat (map snd (shownGroups data)) = List.concat (map snd data)
    /\ (forall num ps, In (num, ps) (shownGroups data) <->
                       In (num, ps) data /\ ps <> []).
Proof.
  intros data. unfold showsNoAssets, shownGroups.
  assert (A : forallb (fun g : Z * list Indexer.AssetPosition =>
                         Nat.eqb (List.length (snd g)) 0) data = true
              <-> filter (fun g : Z * list Indexer.AssetPosition =>
                            negb (Nat.eqb (List.length (snd g)) 0)) data = []).
  { induction data as [|[num ps] data IH]; simpl; [tauto|].
    destruct ps; simpl; [exact IH|]. split; discriminate. }
  split; [|split; [|split]].
  - destruct data as [|g data].
    + simpl. split; [discriminate | intros [H _]; contradiction].
    + cbn [List.length Nat.ltb Nat.leb andb]. rewrite A.
      split; [intros H; split; [discriminate | exact H] | intros [_ H]; exact H].
  - intros ->. split; reflexivity.
  - clear A. induction data as [|[num ps] data IH]; simpl; [reflexivity|].
    destruct ps; simpl; rewrite IH; reflexivity.
  - intros num ps. rewrite filter_In. cbn [snd].
    destruct ps; simpl; split; intros [H1 H2]; split; congruence.
Qed.

(** X12. For a position whose symbol is neither in the metadata
    response nor the denom of a formatted balance, [formatSubaccountAsset]
    resolves no exponent and no asset info; an empty size is shown as
    "0", any other size as it is. *)
Theorem formatSubaccountAsset_unknown_symbol :
  forall (assetInfo : list (string * AssetInfo)) (calls : list Coin)
         (position : Indexer.AssetPosition),
    ~ In (Indexer.symbol position) (map fst assetInfo) ->
    ~ In (Indexer.symbol position) (map denom calls) ->
    let r := formatSubaccountAsset (afterBalances (ingest assetInfo) calls) position in
    fa_exponent r = None
    /\ fa_assetInfo r = None
    /\ (Indexer.size position = "" -> fa_size r = "0")
    /\ (Indexer.size position <> "" -> fa_size r = Indexer.size position).
Proof.
  intros assetInfo calls position Hk Hc r. subst r.
  unfold formatSubaccountAsset. cbn [fa_exponent fa_assetInfo fa_size].
  rewrite afterBalances_infoMap, (afterBalances_get_other calls _ _ Hc).
  unfold ingest.
  destruct (ingest_fold_notin assetInfo (mkPrecision JsMap.empty JsMap.empty)
              (Indexer.symbol position) Hk) as [H1 H2].
  rewrite H1, H2. cbn. repeat split.
  - intros ->. reflexivity.
  - intros H. destruct (Indexer.size position); [contradiction | reflexivity].
Qed.

Lemma formatSubaccountAsset_unknown_symbol_witness :
  fa_exponent
    (formatSubaccountAsset (afterBalances (ingest Sample.bitcoinOnly) [Sample.dydxCoin])
       Sample.usdcPosition)
  = None.
Proof.
  refine (proj1 (formatSubaccountAsset_unknown_symbol Sample.bitcoinOnly
                   [Sample.dydxCoin] Sample.usdcPosition _ _)).
  - simpl. intuition discriminate.
  - simpl. intuition discriminate.
Defined.

End SubaccountFacts.

(** ** Instances *)

Section Instances.

Lemma getAllSubaccountAssets_groups_witness :
  exists result,
    Indexer.getAllSubaccountAssets "dydx1abc" 0 Sample.parentOk = Http.Resolved result
    /\ map fst result = [0; 128].
Proof.
  destruct (getAllSubaccountAssets_groups "dydx1abc" 0 Sample.parentOk)
    as (result & H1 & H2 & _).
  exists result. split; [exact H1 | exact H2].
Defined.

Lemma unawaited_body_rejections_witness :
  getAssetPrices Sample.brokenBody = Http.Rejected.
Proof.
  apply (proj2 (proj1 (proj2 unawaited_body_rejections) Sample.brokenBody)).
  eexists. split; [reflexivity|]. split; reflexivity.
Defined.

Lemma collectSymbols_exact_witness :
  In "USDC" (collectSymbols [(0, [Sample.usdcPosition; Sample.btcPosition]);
                             (128, [Sample.usdcPosition])]).
Proof.
  apply (proj2 (proj1 (proj2 (collectSymbols_exact _)) "USDC")).
  split; [discriminate|].
  exists 0, [Sample.usdcPosition; Sample.btcPosition], Sample.usdcPosition.
  split; [left; reflexivity|]. split; [left; reflexivity | reflexivity].
Defined.

Lemma subaccount_groups_shown_witness :
  shownGroups [(0, [Sample.usdcPosition]); (128, [])] = [(0, [Sample.usdcPosition])]
  /\ showsNoAssets [(0, []); (128, [])] = true.
Proof.
  split; [reflexivity|].
  apply (proj2 (proj1 (subaccount_groups_shown [(0, []); (128, [])]))).
  split; [discriminate | reflexivity].
Defined.

Lemma connect_success_iff_witness :
  Connect.status
    (snd (Connect.connectClient Sample.healthy
            (Connect.capture (Connect.store Sample.connectedWorld))
            Sample.rpc Sample.connectedWorld)) = Connect.success.
Proof.
  apply (proj2 (connect_success_iff Sample.healthy
                  (Connect.capture (Connect.store Sample.connectedWorld))
                  Sample.rpc Sample.connectedWorld)).
  repeat split; intros; reflexivity.
Defined.

End Instances.
